(** * ptctl: the process-group / terminal control shim of fgshell

    [src/ptctl.c] exports six C functions to a host runtime through a
    foreign-function interface.  Five of them forward to a POSIX primitive
    ([tcsetpgrp], [tcgetpgrp], [setpgid], [getpgrp], [getpgid]); the sixth
    reads the calling thread's [errno].

    The development has four layers:
    - [CInt]: the C [int] of the exported signatures, as [Z] with its
      wrap-around written out;
    - [Kernel] and the libc wrappers: the host primitives, taken as
      parameters; a wrapper turns a kernel verdict into the C convention
      (value, or -1 with [errno] set);
    - the shim itself, [ptctl_*], one definition per function of the source;
    - [PosixLaws]: the contract of the primitives that the statements about
      process groups and terminals rest on, [FrameLaws]: the kernel's
      one-cell updates, which say what an accepted setter leaves alone, and
      [Ref], a small executable kernel that satisfies both and on which the
      scenarios are run. *)

From Stdlib Require Import ZArith Lia Bool List.
From stdpp Require Import base option gmap.

Local Open Scope Z_scope.

(** ** C integers *)

Module CInt.

Definition min_int : Z := - 2 ^ 31.
Definition max_int : Z := 2 ^ 31 - 1.

(** The values of a C [int] (32 bits, two's complement). *)
Definition is_int (z : Z) : Prop := min_int <= z <= max_int.

(** Conversion of an integer value to [int]: reduction modulo 2^32 into
    the signed range. *)
Definition to_int (z : Z) : Z := (z + 2 ^ 31) mod 2 ^ 32 - 2 ^ 31.

(** Modelled from the spec: the typedef [pid_t] comes from the system
    headers, which are not part of the repository; the interface section
    gives every process and process-group id as a 32-bit integer, so
    [pid_t] is taken to be [int] and the two implicit conversions at a call
    are conversions between equal types. *)
Definition int_to_pid (z : Z) : Z := to_int z.
Definition pid_to_int (z : Z) : Z := to_int z.

End CInt.

Import CInt.

(** ** The calling thread and the monad of system calls *)

(** What a call can observe and change: the kernel's state and the thread's
    [errno]. *)
Record thread (K : Type) : Type := Thread { kernel : K; errno : Z }.

Arguments Thread {K} _ _.
Arguments kernel {K} _.
Arguments errno {K} _.

Definition sys (K A : Type) : Type := thread K -> A * thread K.

Definition ret {K A : Type} (a : A) : sys K A := fun t => (a, t).

Definition bind {K A B : Type} (m : sys K A) (f : A -> sys K B) : sys K B :=
  fun t => let (a, t') := m t in f a t'.

Notation "x <- m ;; f" := (bind m (fun x => f))
  (at level 100, m at next level, right associativity).

(** The verdict of the kernel on one call: a value, or a platform error
    code. *)
Inductive result (A : Type) : Type :=
| Ok (a : A)
| Err (code : Z).

Arguments Ok {A} _.
Arguments Err {A} _.

(** The five kernel entry points behind the primitives.  They are parameters
    of the development: the shim is compiled against whatever the host
    provides. *)
Class Kernel (K : Type) : Type := {
  sys_tcsetpgrp : Z -> Z -> K -> result unit * K;
  sys_tcgetpgrp : Z -> K -> result Z * K;
  sys_setpgid : Z -> Z -> K -> result unit * K;
  sys_getpgrp : K -> result Z * K;
  sys_getpgid : Z -> K -> result Z * K
}.

Section Shim.

Context {K : Type} `{!Kernel K}.

(** *** The C library wrappers

    The C convention of the five primitives: the value on success, with
    [errno] left alone; -1 on failure, with the error code stored in
    [errno]. *)
Definition syscall {A : Type} (val : A -> Z) (entry : K -> result A * K)
  : sys K Z :=
  fun t =>
    match entry (kernel t) with
    | (Ok a, k') => (val a, Thread k' (errno t))
    | (Err e, k') => (-1, Thread k' e)
    end.

Definition tcsetpgrp (fd pgrp : Z) : sys K Z :=
  syscall (fun _ => 0) (sys_tcsetpgrp fd pgrp).

Definition tcgetpgrp (fd : Z) : sys K Z :=
  syscall (fun v => v) (sys_tcgetpgrp fd).

Definition setpgid (pid pgid : Z) : sys K Z :=
  syscall (fun _ => 0) (sys_setpgid pid pgid).

Definition getpgrp : sys K Z :=
  syscall (fun v => v) sys_getpgrp.

Definition getpgid (pid : Z) : sys K Z :=
  syscall (fun v => v) (sys_getpgid pid).

(** Reading the lvalue [errno]. *)
Definition read_errno : sys K Z := fun t => (errno t, t).

(** *** The shim, function by function ([src/ptctl.c]) *)

(** [int ptctl_tcsetpgrp(int fd, int pgrp) { return tcsetpgrp(fd, pgrp); }] *)
Definition ptctl_tcsetpgrp (fd pgrp : Z) : sys K Z :=
  tcsetpgrp fd (int_to_pid pgrp).

(** [int ptctl_tcgetpgrp(int fd) { return tcgetpgrp(fd); }] *)
Definition ptctl_tcgetpgrp (fd : Z) : sys K Z :=
  r <- tcgetpgrp fd ;; ret (pid_to_int r).

(** [int ptctl_setpgid(int pid, int pgid) { return setpgid(pid, pgid); }] *)
Definition ptctl_setpgid (pid pgid : Z) : sys K Z :=
  setpgid (int_to_pid pid) (int_to_pid pgid).

(** [int ptctl_getpgrp(void) { return getpgrp(); }] *)
Definition ptctl_getpgrp : sys K Z :=
  r <- getpgrp ;; ret (pid_to_int r).

(** [int ptctl_getpgid(int pid) { return getpgid(pid); }] *)
Definition ptctl_getpgid (pid : Z) : sys K Z :=
  r <- getpgid (int_to_pid pid) ;; ret (pid_to_int r).

(** [int ptctl_get_errno(void) { return errno; }] *)
Definition ptctl_get_errno : sys K Z := read_errno.

(** *** The six operations of the interface *)

Inductive op : Type :=
| SetTerminalForegroundGroup (fd pgrp : Z)
| GetTerminalForegroundGroup (fd : Z)
| SetProcessGroup (pid pgid : Z)
| GetOwnProcessGroup
| GetProcessGroupOf (pid : Z)
| GetLastError.

(** The exported function behind each operation. *)
Definition call (o : op) : sys K Z :=
  match o with
  | SetTerminalForegroundGroup fd pgrp => ptctl_tcsetpgrp fd pgrp
  | GetTerminalForegroundGroup fd => ptctl_tcgetpgrp fd
  | SetProcessGroup pid pgid => ptctl_setpgid pid pgid
  | GetOwnProcessGroup => ptctl_getpgrp
  | GetProcessGroupOf pid => ptctl_getpgid pid
  | GetLastError => ptctl_get_errno
  end.

(** The primitive each operation is named after. *)
Definition primitive (o : op) : sys K Z :=
  match o with
  | SetTerminalForegroundGroup fd pgrp => tcsetpgrp fd pgrp
  | GetTerminalForegroundGroup fd => tcgetpgrp fd
  | SetProcessGroup pid pgid => setpgid pid pgid
  | GetOwnProcessGroup => getpgrp
  | GetProcessGroupOf pid => getpgid pid
  | GetLastError => read_errno
  end.

(** The five operations that wrap a system call. *)
Definition wraps_syscall (o : op) : bool :=
  match o with
  | GetLastError => false
  | _ => true
  end.

(** The operations the interface table lists with a failure case. *)
Definition fallible (o : op) : bool :=
  match o with
  | SetTerminalForegroundGroup _ _ | GetTerminalForegroundGroup _
  | SetProcessGroup _ _ | GetProcessGroupOf _ => true
  | GetOwnProcessGroup | GetLastError => false
  end.

(** The arguments are C [int]s. *)
Definition well_typed (o : op) : Prop :=
  match o with
  | SetTerminalForegroundGroup fd pgrp => is_int fd /\ is_int pgrp
  | GetTerminalForegroundGroup fd => is_int fd
  | SetProcessGroup pid pgid => is_int pid /\ is_int pgid
  | GetOwnProcessGroup => True
  | GetProcessGroupOf pid => is_int pid
  | GetLastError => True
  end.

(** The kernel's verdict on an operation, with the value a successful
    call hands back to C; [GetLastError] does not enter the kernel. *)
Definition as_status (r : result unit * K) : result Z * K :=
  match r with
  | (Ok _, k') => (Ok 0, k')
  | (Err e, k') => (Err e, k')
  end.

Definition verdict (o : op) (k : K) : option (result Z * K) :=
  match o with
  | SetTerminalForegroundGroup fd pgrp => Some (as_status (sys_tcsetpgrp fd pgrp k))
  | GetTerminalForegroundGroup fd => Some (sys_tcgetpgrp fd k)
  | SetProcessGroup pid pgid => Some (as_status (sys_setpgid pid pgid k))
  | GetOwnProcessGroup => Some (sys_getpgrp k)
  | GetProcessGroupOf pid => Some (sys_getpgid pid k)
  | GetLastError => None
  end.

(** The operation fails in state [t] with error code [e]. *)
Definition fails_with (o : op) (t : thread K) (e : Z) : Prop :=
  exists k', verdict o (kernel t) = Some (Err e, k').

(** The operation succeeds in state [t] with value [v]. *)
Definition succeeds_with (o : op) (t : thread K) (v : Z) : Prop :=
  exists k', verdict o (kernel t) = Some (Ok v, k').

(** Running two operations in a row, keeping the second result. *)
Definition and_then (o1 o2 : op) : sys K Z :=
  _ <- call o1 ;; call o2.

End Shim.

(** ** The contract of the primitives

    The shim adds nothing to the primitives, so what it does to process
    groups and terminals is what the host does.  The statements about that
    state are made for every host that honours the POSIX description of the
    five primitives, phrased over the following view of the kernel's state. *)

Class KernelView (K : Type) : Type := {
  (** the kernel's own invariant on its tables *)
  consistent : K -> Prop;
  (** the process id of the calling process *)
  caller : K -> Z;
  (** the process group of a process, for the processes that exist *)
  pgid_of : K -> Z -> option Z;
  (** the terminal behind a descriptor of the calling process, when the
      descriptor is open on the controlling terminal of the caller *)
  ctty_of : K -> Z -> option Z;
  (** the foreground process group of a terminal *)
  foreground : K -> Z -> Z
}.

Section View.

Context {K : Type} `{!KernelView K}.

(** [pid = 0] designates the calling process. *)
Definition target (k : K) (pid : Z) : Z :=
  if pid =? 0 then caller k else pid.

(** [pgid = 0] designates the group named after the target process. *)
Definition group_for (p pgid : Z) : Z :=
  if pgid =? 0 then p else pgid.

Definition same_caller (k k' : K) : Prop := caller k' = caller k.

Definition same_groups (k k' : K) : Prop :=
  forall p, pgid_of k' p = pgid_of k p.

Definition same_groups_except (p : Z) (k k' : K) : Prop :=
  forall q, q <> p -> pgid_of k' q = pgid_of k q.

Definition same_descriptors (k k' : K) : Prop :=
  forall fd, ctty_of k' fd = ctty_of k fd.

Definition same_foreground (k k' : K) : Prop :=
  forall T, foreground k' T = foreground k T.

Definition same_foreground_except (T : Z) (k k' : K) : Prop :=
  forall T', T' <> T -> foreground k' T' = foreground k T'.

Definition error_code (e : Z) : Prop := 0 < e <= max_int.

End View.

Class PosixLaws (K : Type) `{!Kernel K, !KernelView K} : Prop := {
  (** the calling process exists; ids are positive and fit [pid_t] *)
  consistent_caller : forall k,
    consistent k -> exists g, pgid_of k (caller k) = Some g;
  consistent_ids : forall k p g,
    consistent k -> pgid_of k p = Some g ->
    0 < p <= max_int /\ 0 < g <= max_int;
  consistent_foreground : forall k fd T,
    consistent k -> ctty_of k fd = Some T -> 0 <= foreground k T <= max_int;

  (** tcgetpgrp: reports the foreground group of the controlling terminal
      behind [fd]; fails on any other descriptor; changes nothing *)
  tcgetpgrp_law : forall fd k,
    match ctty_of k fd with
    | Some T => sys_tcgetpgrp fd k = (Ok (foreground k T), k)
    | None => exists e, sys_tcgetpgrp fd k = (Err e, k) /\ error_code e
    end;

  (** tcsetpgrp: on success the terminal behind [fd] has [pgrp] as its
      foreground group and nothing else moved; on failure nothing moved *)
  tcsetpgrp_ok : forall fd pgrp k u k',
    sys_tcsetpgrp fd pgrp k = (Ok u, k') ->
    (consistent k -> consistent k') /\
    same_caller k k' /\ same_groups k k' /\ same_descriptors k k' /\
    exists T, ctty_of k fd = Some T /\ foreground k' T = pgrp /\
              same_foreground_except T k k';
  tcsetpgrp_err : forall fd pgrp k e k',
    sys_tcsetpgrp fd pgrp k = (Err e, k') -> k' = k /\ error_code e;
  tcsetpgrp_no_tty : forall fd pgrp k,
    ctty_of k fd = None -> exists e, sys_tcsetpgrp fd pgrp k = (Err e, k);

  (** setpgid: on success the target process is in the requested group and
      nothing else moved; on failure nothing moved *)
  setpgid_ok : forall pid pgid k u k',
    sys_setpgid pid pgid k = (Ok u, k') ->
    (consistent k -> consistent k') /\
    same_caller k k' /\ same_descriptors k k' /\ same_foreground k k' /\
    pgid_of k' (target k pid) = Some (group_for (target k pid) pgid) /\
    same_groups_except (target k pid) k k';
  setpgid_err : forall pid pgid k e k',
    sys_setpgid pid pgid k = (Err e, k') -> k' = k /\ error_code e;
  setpgid_no_process : forall pid pgid k,
    pgid_of k (target k pid) = None ->
    exists e, sys_setpgid pid pgid k = (Err e, k);
  (** a process that does not lead its group may start a group of its own *)
  setpgid_own_group : forall k g,
    consistent k -> pgid_of k (caller k) = Some g -> g <> caller k ->
    exists k', sys_setpgid (caller k) (caller k) k = (Ok tt, k');

  (** getpgrp: always succeeds, changes nothing *)
  getpgrp_law : forall k,
    exists g, sys_getpgrp k = (Ok g, k) /\
              (consistent k -> pgid_of k (caller k) = Some g);

  (** getpgid: reports the group of the target process; fails when there is
      no such process; changes nothing *)
  getpgid_law : forall pid k,
    match pgid_of k (target k pid) with
    | Some g => sys_getpgid pid k = (Ok g, k)
    | None => exists e, sys_getpgid pid k = (Err e, k) /\ error_code e
    end
}.

(** ** The kernel's elementary updates

    To say that a setter changes one thing and nothing else, the state that
    differs from [k] in the foreground group of one terminal only, or in the
    process group of one process only, has to be named.  The two updates
    are the host's; each behaves as an update of one cell: writing what is
    there changes nothing, and a second write replaces the first. *)

Class KernelUpdate (K : Type) : Type := {
  (** [k] with the foreground group of terminal [T] set to [g] *)
  put_foreground : Z -> Z -> K -> K;
  (** [k] with the process group of process [p] set to [g] *)
  put_group : Z -> Z -> K -> K
}.

Class FrameLaws (K : Type) `{!Kernel K, !KernelView K, !KernelUpdate K}
  : Prop := {
  put_foreground_same : forall T k,
    put_foreground T (foreground k T) k = k;
  put_foreground_twice : forall T a b k,
    put_foreground T b (put_foreground T a k) = put_foreground T b k;
  put_group_same : forall p g k,
    pgid_of k p = Some g -> put_group p g k = k;
  put_group_twice : forall p a b k,
    put_group p b (put_group p a k) = put_group p b k;

  (** an accepted tcsetpgrp is that one update of the terminal behind
      [fd] *)
  tcsetpgrp_exact : forall fd pgrp k u k' T,
    sys_tcsetpgrp fd pgrp k = (Ok u, k') ->
    ctty_of k fd = Some T ->
    k' = put_foreground T pgrp k;
  (** an accepted setpgid is that one update of the target process *)
  setpgid_exact : forall pid pgid k u k',
    sys_setpgid pid pgid k = (Ok u, k') ->
    k' = put_group (target k pid) (group_for (target k pid) pgid) k
}.

(** ** A reference kernel

    An executable model of the part of POSIX.1 job control the five
    primitives touch: a process table, the terminals with their sessions and
    foreground groups, and the descriptor table of the calling process.
    Signals are left out: the caller is taken to block or ignore SIGTTOU, as
    a job-control shell does. *)

Module Ref.

Record process : Type := Process {
  p_pgid : Z;       (* process group *)
  p_sid : Z;        (* session *)
  p_parent : Z;     (* parent process *)
  p_execed : bool   (* has called one of the exec functions *)
}.

Record terminal : Type := Terminal {
  t_session : Z;    (* the session it is the controlling terminal of *)
  t_fg : Z          (* its foreground process group *)
}.

Inductive file : Type :=
| Tty (T : Z)       (* a terminal device *)
| Plain.            (* anything else *)

Record kstate : Type := KState {
  k_self : Z;
  k_procs : gmap Z process;
  k_ttys : gmap Z terminal;
  k_fds : gmap Z file
}.

(** Error numbers (the Linux values). *)
Definition EPERM : Z := 1.
Definition ESRCH : Z := 3.
Definition EBADF : Z := 9.
Definition EACCES : Z := 13.
Definition EINVAL : Z := 22.
Definition ENOTTY : Z := 25.

(** Some process of session [s] is in group [g]. *)
Definition group_in_session (k : kstate) (g s : Z) : bool :=
  existsb (fun e : Z * process => (p_pgid e.2 =? g) && (p_sid e.2 =? s))
          (map_to_list (k_procs k)).

(** The terminal behind [fd], when it is the controlling terminal of the
    caller: EBADF for a closed descriptor, ENOTTY otherwise. *)
Definition controlling (k : kstate) (fd : Z) : result (Z * terminal) :=
  match k_fds k !! fd with
  | None => Err EBADF
  | Some Plain => Err ENOTTY
  | Some (Tty T) =>
      match k_ttys k !! T, k_procs k !! k_self k with
      | Some tm, Some me =>
          if t_session tm =? p_sid me then Ok (T, tm) else Err ENOTTY
      | _, _ => Err ENOTTY
      end
  end.

Definition ref_tcgetpgrp (fd : Z) (k : kstate) : result Z * kstate :=
  match controlling k fd with
  | Ok (_, tm) => (Ok (t_fg tm), k)
  | Err e => (Err e, k)
  end.

Definition set_foreground (k : kstate) (T : Z) (tm : terminal) (g : Z)
  : kstate :=
  KState (k_self k) (k_procs k)
         (<[T := Terminal (t_session tm) g]> (k_ttys k)) (k_fds k).

(** EINVAL for a negative group; EPERM when no process of the caller's
    session is in the group. *)
Definition ref_tcsetpgrp (fd pgrp : Z) (k : kstate) : result unit * kstate :=
  match controlling k fd with
  | Err e => (Err e, k)
  | Ok (T, tm) =>
      if pgrp <? 0 then (Err EINVAL, k)
      else if group_in_session k pgrp (t_session tm)
           then (Ok tt, set_foreground k T tm pgrp)
           else (Err EPERM, k)
  end.

Definition set_group (k : kstate) (p : Z) (q : process) (g : Z) : kstate :=
  KState (k_self k)
         (<[p := Process g (p_sid q) (p_parent q) (p_execed q)]> (k_procs k))
         (k_ttys k) (k_fds k).

(** EINVAL for a negative group; ESRCH unless the target is the caller or
    one of its children; EACCES for a child that has exec'ed; EPERM for a
    session leader, for a child in another session, and for a group that
    is neither the target's own nor one of the caller's session. *)
Definition ref_setpgid (pid pgid : Z) (k : kstate) : result unit * kstate :=
  let p := if pid =? 0 then k_self k else pid in
  let g := if pgid =? 0 then p else pgid in
  if pgid <? 0 then (Err EINVAL, k)
  else
    match k_procs k !! k_self k, k_procs k !! p with
    | Some me, Some q =>
        if negb (p =? k_self k) && negb (p_parent q =? k_self k)
        then (Err ESRCH, k)
        else if negb (p =? k_self k) && p_execed q then (Err EACCES, k)
        else if p_sid q =? p then (Err EPERM, k)
        else if negb (p_sid q =? p_sid me) then (Err EPERM, k)
        else if (g =? p) || group_in_session k g (p_sid me)
             then (Ok tt, set_group k p q g)
             else (Err EPERM, k)
    | _, _ => (Err ESRCH, k)
    end.

Definition group_of (k : kstate) (p : Z) : option Z :=
  p_pgid <$> k_procs k !! p.

(** getpgrp has no error return. *)
Definition ref_getpgrp (k : kstate) : result Z * kstate :=
  (Ok (default 0 (group_of k (k_self k))), k).

Definition ref_getpgid (pid : Z) (k : kstate) : result Z * kstate :=
  let p := if pid =? 0 then k_self k else pid in
  match group_of k p with
  | Some g => (Ok g, k)
  | None => (Err ESRCH, k)
  end.

#[export] Instance ref_kernel : Kernel kstate := {
  sys_tcsetpgrp := ref_tcsetpgrp;
  sys_tcgetpgrp := ref_tcgetpgrp;
  sys_setpgid := ref_setpgid;
  sys_getpgrp := ref_getpgrp;
  sys_getpgid := ref_getpgid
}.

Definition good_process (p : Z) (q : process) : Prop :=
  0 < p <= max_int /\ 0 < p_pgid q <= max_int /\ (p_sid q = p -> p_pgid q = p).

Definition good_terminal (T : Z) (tm : terminal) : Prop :=
  0 <= t_fg tm <= max_int.

Definition ref_consistent (k : kstate) : Prop :=
  is_Some (k_procs k !! k_self k) /\
  map_Forall good_process (k_procs k) /\
  map_Forall good_terminal (k_ttys k).

Definition ref_ctty (k : kstate) (fd : Z) : option Z :=
  match controlling k fd with
  | Ok (T, _) => Some T
  | Err _ => None
  end.

Definition ref_foreground (k : kstate) (T : Z) : Z :=
  default 0 (t_fg <$> k_ttys k !! T).

#[export] Instance ref_view : KernelView kstate := {
  consistent := ref_consistent;
  caller := k_self;
  pgid_of := group_of;
  ctty_of := ref_ctty;
  foreground := ref_foreground
}.

(** The elementary updates of the reference kernel: one field of one
    entry of one table. *)
Definition put_fg (T g : Z) (k : kstate) : kstate :=
  KState (k_self k) (k_procs k)
         (alter (fun tm => Terminal (t_session tm) g) T (k_ttys k))
         (k_fds k).

Definition put_pgid (p g : Z) (k : kstate) : kstate :=
  KState (k_self k)
         (alter (fun q => Process g (p_sid q) (p_parent q) (p_execed q))
                p (k_procs k))
         (k_ttys k) (k_fds k).

#[export] Instance ref_update : KernelUpdate kstate := {
  put_foreground := put_fg;
  put_group := put_pgid
}.

(** *** A sample machine

    A login shell, pid 100, leading session 100 on terminal 0 (descriptors
    0 and 1; descriptor 3 is a regular file), and its child 200, which has
    just been forked and is the calling process.  Process 300 belongs to
    another session. *)
Definition sample : kstate :=
  KState 200
    (<[100 := Process 100 100 1 true]>
     (<[200 := Process 100 100 100 false]>
      (<[300 := Process 300 300 1 true]> ∅)))
    (<[0 := Terminal 100 100]> ∅)
    (<[0 := Tty 0]> (<[1 := Tty 0]> (<[3 := Plain]> ∅))).

Definition boot : thread kstate := Thread sample 0.

(** The same machine once the child has put itself in a group of its own,
    as a shell's child does before it takes the terminal. *)
Definition grouped : thread kstate := (call (SetProcessGroup 0 0) boot).2.

(** A caller's session on that machine: a descriptor that is closed, a
    read that works, a process that does not exist, and the child moving to
    a group of its own. *)
Definition session : list op :=
  [GetTerminalForegroundGroup 7; GetOwnProcessGroup;
   GetProcessGroupOf 999; SetProcessGroup 0 0].

End Ref.

(** ** What each operation may touch *)

Section Frames.

Context {K : Type} `{!Kernel K, !KernelView K}.

(** An argument no kernel accepts: a descriptor that is not open on the
    caller's controlling terminal, a process that does not exist. *)
Definition invalid_argument (o : op) (k : K) : Prop :=
  match o with
  | SetTerminalForegroundGroup fd _ | GetTerminalForegroundGroup fd =>
      ctty_of k fd = None
  | SetProcessGroup pid _ | GetProcessGroupOf pid =>
      pgid_of k (target k pid) = None
  | GetOwnProcessGroup | GetLastError => False
  end.

(** The change operation [o] is named after, between the state [t] before
    and the state [t'] after a call that returned [r]. *)
Definition named_change (o : op) (t : thread K) (r : Z) (t' : thread K)
  : Prop :=
  match o with
  | GetTerminalForegroundGroup _ | GetOwnProcessGroup
  | GetProcessGroupOf _ =>
      kernel t' = kernel t
  | GetLastError =>
      t' = t
  | SetTerminalForegroundGroup fd pgrp =>
      (r = 0 ->
       errno t' = errno t /\
       same_caller (kernel t) (kernel t') /\
       same_groups (kernel t) (kernel t') /\
       same_descriptors (kernel t) (kernel t') /\
       exists T, ctty_of (kernel t) fd = Some T /\
                 foreground (kernel t') T = pgrp /\
                 same_foreground_except T (kernel t) (kernel t')) /\
      (r <> 0 -> kernel t' = kernel t)
  | SetProcessGroup pid pgid =>
      (r = 0 ->
       errno t' = errno t /\
       same_caller (kernel t) (kernel t') /\
       same_descriptors (kernel t) (kernel t') /\
       same_foreground (kernel t) (kernel t') /\
       pgid_of (kernel t') (target (kernel t) pid)
         = Some (group_for (target (kernel t) pid) pgid) /\
       same_groups_except (target (kernel t) pid) (kernel t) (kernel t')) /\
      (r <> 0 -> kernel t' = kernel t)
  end.

End Frames.

Section Restoring.

Context {K : Type} `{!Kernel K, !KernelView K, !KernelUpdate K}.

(** An accepted setter changed nothing but what it is named after: the
    kernel after it is the kernel before it with that one cell written,
    and writing the old value back into that one cell gives back the whole
    thread state, kernel and errno, as it was before the call. *)
Definition nothing_else (o : op) (t : thread K) (r : Z) (t' : thread K)
  : Prop :=
  match o with
  | SetTerminalForegroundGroup fd pgrp =>
      r = 0 ->
      exists T, ctty_of (kernel t) fd = Some T /\
                kernel t' = put_foreground T pgrp (kernel t) /\
                Thread (put_foreground T (foreground (kernel t) T) (kernel t'))
                       (errno t') = t
  | SetProcessGroup pid pgid =>
      r = 0 ->
      exists g, pgid_of (kernel t) (target (kernel t) pid) = Some g /\
                kernel t'
                = put_group (target (kernel t) pid)
                            (group_for (target (kernel t) pid) pgid)
                            (kernel t) /\
                Thread (put_group (target (kernel t) pid) g (kernel t'))
                       (errno t') = t
  | GetTerminalForegroundGroup _ | GetOwnProcessGroup
  | GetProcessGroupOf _ | GetLastError => True
  end.

End Restoring.

(** ** A caller's sequence of operations *)

Section Sequences.

Context {K : Type} `{!Kernel K}.

(** A caller that issues the operations of [os] one after the other on one
    thread and collects what they return. *)
Fixpoint run (os : list op) : sys K (list Z) :=
  match os with
  | [] => ret []
  | o :: os' => r <- call o ;; rs <- run os' ;; ret (r :: rs)
  end.

(** The code of the last failure the kernel reports along [os], started in
    kernel state [k]; [e] when nothing fails. *)
Fixpoint last_failure (os : list op) (k : K) (e : Z) : Z :=
  match os with
  | [] => e
  | o :: os' =>
      match verdict o k with
      | Some (Ok _, k') => last_failure os' k' e
      | Some (Err e', k') => last_failure os' k' e'
      | None => last_failure os' k e
      end
  end.

(** The four operations that only read. *)
Definition reads_only (o : op) : bool :=
  match o with
  | GetTerminalForegroundGroup _ | GetOwnProcessGroup
  | GetProcessGroupOf _ | GetLastError => true
  | SetTerminalForegroundGroup _ _ | SetProcessGroup _ _ => false
  end.

End Sequences.

(** * Facts *)

(** ** C integers *)

Lemma to_int_id (z : Z) : is_int z -> to_int z = z.
Proof.
  unfold is_int, min_int, max_int, to_int. intros Hz.
  rewrite Z.mod_small by lia. lia.
Qed.

Lemma to_int_is_int (z : Z) : is_int (to_int z).
Proof.
  unfold is_int, min_int, max_int, to_int.
  pose proof (Z.mod_pos_bound (z + 2 ^ 31) (2 ^ 32)). lia.
Qed.

Lemma int_to_pid_id (z : Z) : is_int z -> int_to_pid z = z.
Proof. apply to_int_id. Qed.

Lemma pid_to_int_id (z : Z) : is_int z -> pid_to_int z = z.
Proof. apply to_int_id. Qed.

Lemma is_int_0 : is_int 0.
Proof. unfold is_int, min_int, max_int. lia. Qed.

Lemma is_int_m1 : is_int (-1).
Proof. unfold is_int, min_int, max_int. lia. Qed.

Lemma error_code_is_int (e : Z) : error_code e -> is_int e.
Proof. unfold error_code, is_int, min_int, max_int. lia. Qed.

Lemma error_code_nonzero (e : Z) : error_code e -> e <> 0.
Proof. unfold error_code. lia. Qed.

(** ** The wrappers and the shim, for every host *)

Section ShimFacts.

Context {K : Type} `{!Kernel K}.

Lemma syscall_ok {A : Type} (val : A -> Z) (entry : K -> result A * K)
      (t : thread K) (a : A) (k' : K) :
  entry (kernel t) = (Ok a, k') ->
  syscall val entry t = (val a, Thread k' (errno t)).
Proof. intros H. unfold syscall. now rewrite H. Qed.

Lemma syscall_err {A : Type} (val : A -> Z) (entry : K -> result A * K)
      (t : thread K) (e : Z) (k' : K) :
  entry (kernel t) = (Err e, k') ->
  syscall val entry t = (-1, Thread k' e).
Proof. intros H. unfold syscall. now rewrite H. Qed.

(** A call on a successful kernel verdict. *)
Lemma primitive_ok (o : op) (t : thread K) (v : Z) (k' : K) :
  verdict o (kernel t) = Some (Ok v, k') ->
  primitive o t = (v, Thread k' (errno t)).
Proof.
  destruct o; simpl; intros H; inversion H as [H']; clear H.
  - unfold tcsetpgrp, syscall.
    destruct (sys_tcsetpgrp fd pgrp (kernel t)) as [[u|e] k'']; simpl in H';
      now inversion H'.
  - exact (syscall_ok (fun x => x) _ t v k' H').
  - unfold setpgid, syscall.
    destruct (sys_setpgid pid pgid (kernel t)) as [[u|e] k'']; simpl in H';
      now inversion H'.
  - exact (syscall_ok (fun x => x) _ t v k' H').
  - exact (syscall_ok (fun x => x) _ t v k' H').
Qed.

(** A call on a failing kernel verdict. *)
Lemma primitive_err (o : op) (t : thread K) (e : Z) (k' : K) :
  verdict o (kernel t) = Some (Err e, k') ->
  primitive o t = (-1, Thread k' e).
Proof.
  destruct o; simpl; intros H; inversion H as [H']; clear H.
  - unfold tcsetpgrp, syscall.
    destruct (sys_tcsetpgrp fd pgrp (kernel t)) as [[u|e'] k'']; simpl in H';
      now inversion H'.
  - exact (syscall_err (fun x => x) _ t e k' H').
  - unfold setpgid, syscall.
    destruct (sys_setpgid pid pgid (kernel t)) as [[u|e'] k'']; simpl in H';
      now inversion H'.
  - exact (syscall_err (fun x => x) _ t e k' H').
  - exact (syscall_err (fun x => x) _ t e k' H').
Qed.

(** The shim is the primitive followed by the conversion of its result
    to [int]. *)
Lemma call_primitive (o : op) (t : thread K) :
  well_typed o ->
  call o t = (if wraps_syscall o then to_int (primitive o t).1
              else (primitive o t).1,
              (primitive o t).2).
Proof.
  destruct o; simpl; intros Ht.
  - destruct Ht as [_ Hp]. unfold ptctl_tcsetpgrp.
    rewrite (int_to_pid_id _ Hp).
    unfold tcsetpgrp, syscall.
    destruct (sys_tcsetpgrp fd pgrp (kernel t)) as [[u|e] k']; reflexivity.
  - unfold ptctl_tcgetpgrp, bind, ret, pid_to_int.
    now destruct (tcgetpgrp fd t).
  - destruct Ht as [Hp Hg]. unfold ptctl_setpgid.
    rewrite (int_to_pid_id _ Hp), (int_to_pid_id _ Hg).
    unfold setpgid, syscall.
    destruct (sys_setpgid pid pgid (kernel t)) as [[u|e] k']; reflexivity.
  - unfold ptctl_getpgrp, bind, ret, pid_to_int.
    now destruct (getpgrp t).
  - unfold ptctl_getpgid, bind, ret, pid_to_int.
    rewrite (int_to_pid_id _ Ht).
    now destruct (getpgid pid t).
  - reflexivity.
Qed.

Lemma call_state (o : op) (t : thread K) :
  well_typed o -> (call o t).2 = (primitive o t).2.
Proof. intros Ht. now rewrite (call_primitive o t Ht). Qed.

Lemma call_ok (o : op) (t : thread K) (v : Z) (k' : K) :
  well_typed o -> is_int v ->
  verdict o (kernel t) = Some (Ok v, k') ->
  call o t = (v, Thread k' (errno t)).
Proof.
  intros Ht Hv H. rewrite (call_primitive o t Ht), (primitive_ok o t v k' H).
  simpl. destruct (wraps_syscall o); [now rewrite to_int_id | reflexivity].
Qed.

Lemma call_err (o : op) (t : thread K) (e : Z) (k' : K) :
  well_typed o ->
  verdict o (kernel t) = Some (Err e, k') ->
  call o t = (-1, Thread k' e).
Proof.
  intros Ht H. rewrite (call_primitive o t Ht), (primitive_err o t e k' H).
  simpl. destruct (wraps_syscall o); [| reflexivity].
  now rewrite (to_int_id _ is_int_m1).
Qed.

(** C4: each of the five operations that wrap a system call computes
    exactly what the primitive it names computes: on arguments that are C
    ints, and whenever the primitive hands back a value of its declared
    integer type, the operation returns the primitive's return value and
    leaves the state, errno included, that the primitive leaves. *)
Theorem shim_is_primitive (o : op) (t : thread K) :
  wraps_syscall o = true ->
  well_typed o ->
  is_int (primitive o t).1 ->
  call o t = primitive o t.
Proof.
  intros Hw Ht Hr. rewrite (call_primitive o t Ht), Hw.
  rewrite (to_int_id _ Hr). now destruct (primitive o t).
Qed.

(** C8: GetLastError is a pure read of errno: it returns the stored code,
    leaves the whole thread state as it was, and a second call right
    after the first returns the same value. *)
Theorem get_errno_pure (t : thread K) :
  ptctl_get_errno t = (errno t, t) /\
  (call GetLastError t).2 = t /\
  (and_then GetLastError GetLastError t).1 = (call GetLastError t).1.
Proof. repeat split. Qed.

End ShimFacts.

(** ** The operations on a host that honours the contract *)

Section PosixFacts.

Context {K : Type} `{!Kernel K, !KernelView K} (Laws : PosixLaws K).

Lemma as_status_ok (r : result unit * K) (v : Z) (k' : K) :
  as_status r = (Ok v, k') -> v = 0 /\ exists u, r = (Ok u, k').
Proof.
  destruct r as [[u|e] k'']; simpl; intros H; inversion H; eauto.
Qed.

Lemma as_status_err (r : result unit * K) (e : Z) (k' : K) :
  as_status r = (Err e, k') -> r = (Err e, k').
Proof.
  destruct r as [[u|e'] k'']; simpl; intros H; inversion H; eauto.
Qed.

(** A failing operation leaves the kernel as it was and reports a
    positive code that fits an [int]. *)
Lemma failure_code (o : op) (k k' : K) (e : Z) :
  verdict o k = Some (Err e, k') -> k' = k /\ error_code e.
Proof.
  destruct o; simpl; intros H; inversion H as [H']; clear H.
  - apply as_status_err in H'. eapply tcsetpgrp_err; eauto.
  - pose proof (tcgetpgrp_law fd k) as L.
    destruct (ctty_of k fd) as [T|].
    + rewrite L in H'. inversion H'.
    + destruct L as (e0 & L & He). rewrite L in H'. now inversion H'; subst.
  - apply as_status_err in H'. eapply setpgid_err; eauto.
  - destruct (getpgrp_law k) as (g & L & _). rewrite L in H'. inversion H'.
  - pose proof (getpgid_law pid k) as L.
    destruct (pgid_of k (target k pid)) as [g|].
    + rewrite L in H'. inversion H'.
    + destruct L as (e0 & L & He). rewrite L in H'. now inversion H'; subst.
Qed.

Lemma and_then_eq (o1 o2 : op) (t : thread K) :
  and_then o1 o2 t = call o2 (call o1 t).2.
Proof. unfold and_then, bind. now destruct (call o1 t). Qed.

(** C3: a fallible operation that fails returns -1, and GetLastError,
    called next, returns the code of that failure, which is not zero; a
    descriptor that is not open on the caller's terminal and a process
    that does not exist are arguments on which the operations fail. *)
Theorem failure_is_reported (o : op) (t : thread K) :
  fallible o = true ->
  well_typed o ->
  (invalid_argument o (kernel t) -> exists e, fails_with o t e) /\
  (forall e, fails_with o t e ->
     (call o t).1 = -1 /\
     (and_then o GetLastError t).1 = e /\
     e <> 0).
Proof.
  intros Hf Ht. split.
  - intros Hbad. unfold fails_with.
    destruct o; simpl in *; try discriminate.
    + destruct (tcsetpgrp_no_tty fd pgrp (kernel t) Hbad) as (e & L).
      exists e, (kernel t). now rewrite L.
    + pose proof (tcgetpgrp_law fd (kernel t)) as L. rewrite Hbad in L.
      destruct L as (e & L & _). exists e, (kernel t). now rewrite L.
    + destruct (setpgid_no_process pid pgid (kernel t) Hbad) as (e & L).
      exists e, (kernel t). now rewrite L.
    + pose proof (getpgid_law pid (kernel t)) as L. rewrite Hbad in L.
      destruct L as (e & L & _). exists e, (kernel t). now rewrite L.
  - intros e (k' & Hv).
    rewrite and_then_eq, (call_err o t e k' Ht Hv). simpl.
    repeat split.
    apply error_code_nonzero. eapply failure_code; eauto.
Qed.

(** C9: a success does not clear the error code.  The state a call leaves
    is the state its primitive leaves, so the shim writes errno nowhere;
    hence when an operation fails with code [e] and the next one
    succeeds, GetLastError still returns [e], which is not zero. *)
Theorem success_keeps_error_code (o1 o2 : op) (t : thread K) (e v : Z) :
  well_typed o1 ->
  well_typed o2 ->
  fails_with o1 t e ->
  succeeds_with o2 (call o1 t).2 v ->
  (call o2 (call o1 t).2).2 = (primitive o2 (call o1 t).2).2 /\
  (call GetLastError (call o2 (call o1 t).2).2).1 = e /\
  e <> 0.
Proof.
  intros Ht1 Ht2 (k1 & H1) (k2 & H2).
  split; [now apply call_state |]. split.
  - rewrite (call_state o2 _ Ht2), (primitive_ok o2 _ v k2 H2).
    rewrite (call_err o1 t e k1 Ht1 H1). reflexivity.
  - apply error_code_nonzero. eapply failure_code; eauto.
Qed.

(** C1: when SetTerminalForegroundGroup(fd, pgrp) is accepted (returns
    0), GetTerminalForegroundGroup(fd), called next, returns pgrp. *)
Theorem foreground_roundtrip (fd pgrp : Z) (t : thread K) :
  is_int fd ->
  is_int pgrp ->
  (call (SetTerminalForegroundGroup fd pgrp) t).1 = 0 ->
  (and_then (SetTerminalForegroundGroup fd pgrp)
            (GetTerminalForegroundGroup fd) t).1 = pgrp.
Proof.
  intros Hfd Hp H0. rewrite and_then_eq.
  destruct (sys_tcsetpgrp fd pgrp (kernel t)) as [[u|e] k'] eqn:E.
  - assert (Hv : verdict (SetTerminalForegroundGroup fd pgrp) (kernel t)
                 = Some (Ok 0, k')) by (simpl; now rewrite E).
    rewrite (call_ok (SetTerminalForegroundGroup fd pgrp) t 0 k'
                     (conj Hfd Hp) is_int_0 Hv). cbn [snd].
    destruct (tcsetpgrp_ok _ _ _ _ _ E) as (_ & _ & _ & Hd & T & HT & Hfg & _).
    pose proof (tcgetpgrp_law fd k') as L.
    rewrite (Hd fd), HT, Hfg in L.
    rewrite (call_ok (GetTerminalForegroundGroup fd) (Thread k' (errno t))
                     pgrp k' Hfd Hp); [reflexivity |].
    simpl. now rewrite L.
  - assert (Hv : verdict (SetTerminalForegroundGroup fd pgrp) (kernel t)
                 = Some (Err e, k')) by (simpl; now rewrite E).
    rewrite (call_err (SetTerminalForegroundGroup fd pgrp) t e k'
                      (conj Hfd Hp) Hv) in H0. discriminate.
Qed.

Lemma target_same_caller (k k' : K) (pid : Z) :
  same_caller k k' -> target k' pid = target k pid.
Proof. unfold same_caller, target. now intros ->. Qed.

Lemma pgid_is_int (k : K) (p g : Z) :
  consistent k -> pgid_of k p = Some g -> is_int p /\ is_int g /\ 0 < p /\ 0 < g.
Proof.
  intros Hc Hg. destruct (consistent_ids k p g Hc Hg) as [Hp Hg'].
  unfold is_int, min_int, max_int in *. lia.
Qed.

(** An accepted setpgid followed by getpgid on the same process. *)
Lemma setpgid_then_getpgid (pid pgid : Z) (t : thread K) :
  consistent (kernel t) -> is_int pid -> is_int pgid ->
  (call (SetProcessGroup pid pgid) t).1 = 0 ->
  (and_then (SetProcessGroup pid pgid) (GetProcessGroupOf pid) t).1
  = group_for (target (kernel t) pid) pgid.
Proof.
  intros Hc Hpid Hpgid H0. rewrite and_then_eq.
  destruct (sys_setpgid pid pgid (kernel t)) as [[u|e] k'] eqn:E.
  - assert (Hv : verdict (SetProcessGroup pid pgid) (kernel t)
                 = Some (Ok 0, k')) by (simpl; now rewrite E).
    rewrite (call_ok (SetProcessGroup pid pgid) t 0 k'
                     (conj Hpid Hpgid) is_int_0 Hv). cbn [snd].
    destruct (setpgid_ok _ _ _ _ _ E) as (Hc' & Hs & _ & _ & Hg & _).
    pose proof (getpgid_law pid k') as L.
    rewrite (target_same_caller _ _ _ Hs), Hg in L.
    destruct (pgid_is_int k' _ _ (Hc' Hc) Hg) as (_ & Hgi & _).
    rewrite (call_ok (GetProcessGroupOf pid) (Thread k' (errno t))
                     _ k' Hpid Hgi); [reflexivity |].
    simpl. now rewrite L.
  - assert (Hv : verdict (SetProcessGroup pid pgid) (kernel t)
                 = Some (Err e, k')) by (simpl; now rewrite E).
    rewrite (call_err (SetProcessGroup pid pgid) t e k'
                      (conj Hpid Hpgid) Hv) in H0. discriminate.
Qed.

(** C2, as the code has it: when SetProcessGroup(pid, pgid) is accepted
    (returns 0), GetProcessGroupOf(pid), called next, returns pgid if pgid
    is not 0, and the process id of the target process if pgid is 0 (the
    caller's own id when pid is 0 too).  In particular a caller P that
    does not lead its group gets 0 from SetProcessGroup(P, P) and then P
    from GetProcessGroupOf(P). *)
Theorem process_group_roundtrip (pid pgid : Z) (t : thread K) :
  consistent (kernel t) ->
  is_int pid ->
  is_int pgid ->
  ((call (SetProcessGroup pid pgid) t).1 = 0 ->
   (and_then (SetProcessGroup pid pgid) (GetProcessGroupOf pid) t).1
   = if pgid =? 0 then (if pid =? 0 then caller (kernel t) else pid)
     else pgid) /\
  (forall g,
     pgid_of (kernel t) (caller (kernel t)) = Some g ->
     g <> caller (kernel t) ->
     (call (SetProcessGroup (caller (kernel t)) (caller (kernel t))) t).1 = 0 /\
     (and_then (SetProcessGroup (caller (kernel t)) (caller (kernel t)))
               (GetProcessGroupOf (caller (kernel t))) t).1
     = caller (kernel t)).
Proof.
  intros Hc Hpid Hpgid. split.
  - intros H0. now rewrite (setpgid_then_getpgid pid pgid t Hc Hpid Hpgid H0).
  - intros g Hg Hne. set (P := caller (kernel t)).
    destruct (pgid_is_int _ _ _ Hc Hg) as (HP & _ & HP0 & _). fold P in HP, HP0.
    destruct (setpgid_own_group (kernel t) g Hc Hg Hne) as (k' & E). fold P in E.
    assert (Hv : verdict (SetProcessGroup P P) (kernel t) = Some (Ok 0, k'))
      by (simpl; now rewrite E).
    assert (H0 : (call (SetProcessGroup P P) t).1 = 0)
      by now rewrite (call_ok (SetProcessGroup P P) t 0 k'
                             (conj HP HP) is_int_0 Hv).
    split; [exact H0 |].
    rewrite (setpgid_then_getpgid P P t Hc HP HP H0).
    unfold group_for, target.
    destruct (P =? 0) eqn:EP; [apply Z.eqb_eq in EP; lia | reflexivity].
Qed.

(** getpgrp on a consistent kernel. *)
Lemma getpgrp_call (t : thread K) :
  consistent (kernel t) ->
  exists g, pgid_of (kernel t) (caller (kernel t)) = Some g /\
            call GetOwnProcessGroup t = (g, t) /\ is_int g /\ 0 < g.
Proof.
  intros Hc. destruct (getpgrp_law (kernel t)) as (g & L & Hg).
  specialize (Hg Hc). exists g.
  destruct (pgid_is_int _ _ _ Hc Hg) as (_ & Hgi & _ & Hg0).
  split; [exact Hg |]. split; [| split; assumption].
  rewrite (call_ok GetOwnProcessGroup t g (kernel t) I Hgi); [now destruct t |].
  simpl. now rewrite L.
Qed.

(** C5: GetOwnProcessGroup cannot fail: it returns the process group of
    the calling process, which is not negative and so never -1, and it
    leaves the state as it was. *)
Theorem own_group_cannot_fail (t : thread K) :
  consistent (kernel t) ->
  exists g, pgid_of (kernel t) (caller (kernel t)) = Some g /\
            call GetOwnProcessGroup t = (g, t) /\
            0 <= g /\ g <> -1.
Proof.
  intros Hc. destruct (getpgrp_call t Hc) as (g & Hg & Hcall & _ & Hg0).
  exists g. split; [exact Hg |]. split; [exact Hcall |]. lia.
Qed.

(** C10: GetProcessGroupOf(0) returns the process-group id of the calling
    process itself, and that is what GetOwnProcessGroup() returns: the two
    calls give the same result, the caller's own group, and both leave the
    state as it was. *)
Theorem getpgid_zero_is_getpgrp (t : thread K) :
  consistent (kernel t) ->
  exists g, pgid_of (kernel t) (caller (kernel t)) = Some g /\
            call (GetProcessGroupOf 0) t = (g, t) /\
            call GetOwnProcessGroup t = (g, t).
Proof.
  intros Hc. destruct (getpgrp_call t Hc) as (g & Hg & Hcall & Hgi & _).
  exists g. split; [exact Hg |]. split; [| exact Hcall].
  pose proof (getpgid_law 0 (kernel t)) as L.
  unfold target in L. simpl in L. rewrite Hg in L.
  rewrite (call_ok (GetProcessGroupOf 0) t g (kernel t) is_int_0 Hgi);
    [now destruct t |].
  simpl. now rewrite L.
Qed.

End PosixFacts.

Section FrameFacts.

Context {K : Type} `{!Kernel K, !KernelView K} (Laws : PosixLaws K).

(** A call that reads: the kernel is as it was. *)
Lemma reader_kernel (o : op) (t : thread K) (r : result Z) :
  well_typed o ->
  verdict o (kernel t) = Some (r, kernel t) ->
  kernel (call o t).2 = kernel t.
Proof.
  intros Ht Hv. destruct r as [v|e].
  - now rewrite (call_state o t Ht), (primitive_ok o t v _ Hv).
  - now rewrite (call_state o t Ht), (primitive_err o t e _ Hv).
Qed.

(** What each operation does to the view of the kernel and to errno. *)
Lemma named_change_holds (o : op) (t : thread K) :
  well_typed o ->
  named_change o t (call o t).1 (call o t).2.
Proof.
  intros Ht. destruct o; unfold named_change.
  - (* SetTerminalForegroundGroup *)
    destruct (sys_tcsetpgrp fd pgrp (kernel t)) as [[u|e] k'] eqn:E.
    + assert (Hv : verdict (SetTerminalForegroundGroup fd pgrp) (kernel t)
                   = Some (Ok 0, k')) by (simpl; now rewrite E).
      rewrite (call_ok (SetTerminalForegroundGroup fd pgrp) t 0 k'
                       Ht is_int_0 Hv). cbn [fst snd kernel errno].
      split; [intros _ | intros H; now elim H].
      destruct (tcsetpgrp_ok _ _ _ _ _ E) as (_ & Hs & Hg & Hd & T & HT).
      split; [reflexivity |]. repeat (split; [assumption |]). now exists T.
    + assert (Hv : verdict (SetTerminalForegroundGroup fd pgrp) (kernel t)
                   = Some (Err e, k')) by (simpl; now rewrite E).
      rewrite (call_err (SetTerminalForegroundGroup fd pgrp) t e k' Ht Hv).
      cbn [fst snd kernel errno].
      split; [discriminate | intros _].
      now destruct (tcsetpgrp_err _ _ _ _ _ E).
  - (* GetTerminalForegroundGroup *)
    pose proof (tcgetpgrp_law fd (kernel t)) as L.
    destruct (ctty_of (kernel t) fd) as [T|].
    + eapply reader_kernel; [exact Ht |]. simpl. now rewrite L.
    + destruct L as (e & L & _).
      eapply reader_kernel; [exact Ht |]. simpl. now rewrite L.
  - (* SetProcessGroup *)
    destruct (sys_setpgid pid pgid (kernel t)) as [[u|e] k'] eqn:E.
    + assert (Hv : verdict (SetProcessGroup pid pgid) (kernel t)
                   = Some (Ok 0, k')) by (simpl; now rewrite E).
      rewrite (call_ok (SetProcessGroup pid pgid) t 0 k' Ht is_int_0 Hv).
      cbn [fst snd kernel errno].
      split; [intros _ | intros H; now elim H].
      destruct (setpgid_ok _ _ _ _ _ E) as (_ & Hs & Hd & Hf & Hg & Hx).
      split; [reflexivity |]. repeat (split; [assumption |]). assumption.
    + assert (Hv : verdict (SetProcessGroup pid pgid) (kernel t)
                   = Some (Err e, k')) by (simpl; now rewrite E).
      rewrite (call_err (SetProcessGroup pid pgid) t e k' Ht Hv).
      cbn [fst snd kernel errno].
      split; [discriminate | intros _].
      now destruct (setpgid_err _ _ _ _ _ E).
  - (* GetOwnProcessGroup *)
    destruct (getpgrp_law (kernel t)) as (g & L & _).
    eapply reader_kernel; [exact Ht |]. simpl. now rewrite L.
  - (* GetProcessGroupOf *)
    pose proof (getpgid_law pid (kernel t)) as L.
    destruct (pgid_of (kernel t) (target (kernel t) pid)) as [g|].
    + eapply reader_kernel; [exact Ht |]. simpl. now rewrite L.
    + destruct L as (e & L & _).
      eapply reader_kernel; [exact Ht |]. simpl. now rewrite L.
  - (* GetLastError *)
    reflexivity.
Qed.

Context `{!KernelUpdate K} (Frame : FrameLaws K).


End FrameFacts.

(** ** The reference kernel honours the contract *)

Module RefFacts.

Import Ref.

Lemma controlling_ok (k : kstate) (fd T : Z) (tm : terminal) :
  controlling k fd = Ok (T, tm) ->
  k_fds k !! fd = Some (Tty T) /\
  k_ttys k !! T = Some tm /\
  exists me, k_procs k !! k_self k = Some me /\ t_session tm = p_sid me.
Proof.
  unfold controlling. intros H.
  destruct (k_fds k !! fd) as [[T'|]|]; try discriminate.
  destruct (k_ttys k !! T') as [tm'|] eqn:ET; try discriminate.
  destruct (k_procs k !! k_self k) as [me|]; try discriminate.
  destruct (t_session tm' =? p_sid me) eqn:Es; try discriminate.
  inversion H; subst. apply Z.eqb_eq in Es. eauto.
Qed.

Lemma controlling_err (k : kstate) (fd e : Z) :
  controlling k fd = Err e -> error_code e.
Proof.
  unfold controlling, error_code, max_int. intros H.
  destruct (k_fds k !! fd) as [[T'|]|];
    [destruct (k_ttys k !! T') as [tm'|];
     [destruct (k_procs k !! k_self k) as [me|];
      [destruct (t_session tm' =? p_sid me) |] |] | |];
    inversion H; unfold EBADF, ENOTTY; lia.
Qed.

Lemma group_in_session_member (k : kstate) (g s : Z) :
  group_in_session k g s = true ->
  exists p q, k_procs k !! p = Some q /\ p_pgid q = g /\ p_sid q = s.
Proof.
  unfold group_in_session. intros H.
  apply existsb_exists in H. destruct H as ([p q] & Hin & Hb).
  apply andb_true_iff in Hb. destruct Hb as [Hg Hs].
  apply Z.eqb_eq in Hg, Hs. exists p, q.
  split; [| now split].
  apply elem_of_map_to_list. now apply list_elem_of_In.
Qed.

Lemma group_of_Some (k : kstate) (p g : Z) :
  group_of k p = Some g <-> exists q, k_procs k !! p = Some q /\ p_pgid q = g.
Proof.
  unfold group_of. destruct (k_procs k !! p) as [q|]; simpl; split.
  - intros H. inversion H. eauto.
  - intros (q' & H & <-). now inversion H.
  - discriminate.
  - intros (q' & H & _). discriminate.
Qed.

Lemma group_of_None (k : kstate) (p : Z) :
  group_of k p = None <-> k_procs k !! p = None.
Proof.
  unfold group_of. destruct (k_procs k !! p); simpl; split; congruence.
Qed.

(** Moving a terminal's foreground group does not move descriptors. *)
Lemma ctty_set_foreground (k : kstate) (T : Z) (tm : terminal) (g fd : Z) :
  k_ttys k !! T = Some tm ->
  ref_ctty (set_foreground k T tm g) fd = ref_ctty k fd.
Proof.
  intros HT. unfold ref_ctty, controlling, set_foreground. simpl.
  destruct (k_fds k !! fd) as [[T'|]|]; try reflexivity.
  destruct (decide (T' = T)) as [->|Hne].
  - rewrite lookup_insert_eq, HT. simpl.
    destruct (k_procs k !! k_self k) as [me|]; [| reflexivity].
    now destruct (t_session tm =? p_sid me).
  - rewrite lookup_insert_ne by congruence. reflexivity.
Qed.

(** Moving a process to another group does not move descriptors. *)
Lemma ctty_set_group (k : kstate) (p : Z) (q : process) (g fd : Z) :
  k_procs k !! p = Some q ->
  ref_ctty (set_group k p q g) fd = ref_ctty k fd.
Proof.
  intros Hp. unfold ref_ctty, controlling, set_group. simpl.
  destruct (k_fds k !! fd) as [[T'|]|]; try reflexivity.
  destruct (k_ttys k !! T') as [tm'|]; [| reflexivity].
  destruct (decide (k_self k = p)) as [->|Hne].
  - now rewrite lookup_insert_eq, Hp.
  - rewrite lookup_insert_ne by congruence. reflexivity.
Qed.

Lemma consistent_set_foreground (k : kstate) (T : Z) (tm : terminal) (g : Z) :
  0 <= g <= max_int ->
  ref_consistent k -> ref_consistent (set_foreground k T tm g).
Proof.
  intros Hg (Hself & Hp & Ht). unfold ref_consistent, set_foreground. simpl.
  split; [assumption | split; [assumption |]].
  now apply map_Forall_insert_2.
Qed.

Lemma consistent_set_group (k : kstate) (p : Z) (q : process) (g : Z) :
  k_procs k !! p = Some q ->
  0 < g <= max_int ->
  (p_sid q = p -> g = p) ->
  ref_consistent k -> ref_consistent (set_group k p q g).
Proof.
  intros Hq Hg Hlead (Hself & Hp & Ht). unfold ref_consistent, set_group. simpl.
  split; [| split; [| assumption]].
  - destruct (decide (p = k_self k)) as [->|Hne].
    + rewrite lookup_insert_eq. eauto.
    + now rewrite lookup_insert_ne.
  - apply map_Forall_insert_2; [| assumption].
    destruct (Hp p q Hq) as (Hpr & _ & _).
    unfold good_process. simpl. auto.
Qed.

Lemma ref_tcgetpgrp_law (fd : Z) (k : kstate) :
  match ref_ctty k fd with
  | Some T => ref_tcgetpgrp fd k = (Ok (ref_foreground k T), k)
  | None => exists e, ref_tcgetpgrp fd k = (Err e, k) /\ error_code e
  end.
Proof.
  unfold ref_ctty, ref_tcgetpgrp, ref_foreground.
  destruct (controlling k fd) as [[T tm]|e] eqn:E.
  - destruct (controlling_ok k fd T tm E) as (_ & HT & _). now rewrite HT.
  - exists e. split; [reflexivity |]. eapply controlling_err; eauto.
Qed.

Lemma ref_tcsetpgrp_ok (fd pgrp : Z) (k : kstate) (u : unit) (k' : kstate) :
  ref_tcsetpgrp fd pgrp k = (Ok u, k') ->
  exists T tm, controlling k fd = Ok (T, tm) /\
               k_ttys k !! T = Some tm /\
               0 <= pgrp /\
               group_in_session k pgrp (t_session tm) = true /\
               k' = set_foreground k T tm pgrp.
Proof.
  unfold ref_tcsetpgrp. intros H.
  destruct (controlling k fd) as [[T tm]|e] eqn:E; [| discriminate].
  destruct (pgrp <? 0) eqn:En; [discriminate |].
  destruct (group_in_session k pgrp (t_session tm)) eqn:Eg; [| discriminate].
  inversion H; subst. exists T, tm.
  destruct (controlling_ok k fd T tm E) as (_ & HT & _).
  apply Z.ltb_ge in En. auto.
Qed.

Lemma ref_tcsetpgrp_err (fd pgrp : Z) (k : kstate) (e : Z) (k' : kstate) :
  ref_tcsetpgrp fd pgrp k = (Err e, k') -> k' = k /\ error_code e.
Proof.
  unfold ref_tcsetpgrp. intros H.
  destruct (controlling k fd) as [[T tm]|e0] eqn:E.
  - destruct (pgrp <? 0);
      [| destruct (group_in_session k pgrp (t_session tm))];
      inversion H; subst; (split; [reflexivity |]);
      unfold error_code, max_int, EINVAL, EPERM; lia.
  - inversion H; subst. split; [reflexivity |]. eapply controlling_err; eauto.
Qed.

Lemma ref_setpgid_ok (pid pgid : Z) (k : kstate) (u : unit) (k' : kstate) :
  ref_setpgid pid pgid k = (Ok u, k') ->
  exists q, k_procs k !! target k pid = Some q /\
            p_sid q <> target k pid /\
            (group_for (target k pid) pgid = target k pid \/
             group_in_session k (group_for (target k pid) pgid) (p_sid q)
             = true) /\
            k' = set_group k (target k pid) q
                           (group_for (target k pid) pgid).
Proof.
  unfold group_for, target. simpl caller.
  intros H. unfold ref_setpgid in H. cbv zeta in H.
  set (p := if pid =? 0 then k_self k else pid) in *.
  set (g := if pgid =? 0 then p else pgid) in *.
  destruct (pgid <? 0); [discriminate |].
  destruct (k_procs k !! k_self k) as [me|]; [| discriminate].
  destruct (k_procs k !! p) as [q|]; [| discriminate].
  destruct (negb (p =? k_self k) && negb (p_parent q =? k_self k));
    [discriminate |].
  destruct (negb (p =? k_self k) && p_execed q); [discriminate |].
  destruct (p_sid q =? p) eqn:El; [discriminate |].
  destruct (negb (p_sid q =? p_sid me)) eqn:Es; [discriminate |].
  destruct ((g =? p) || group_in_session k g (p_sid me)) eqn:Eg;
    [| discriminate].
  inversion H; subst. exists q.
  apply Z.eqb_neq in El. apply negb_false_iff, Z.eqb_eq in Es.
  apply orb_true_iff in Eg. rewrite Z.eqb_eq in Eg. rewrite Es.
  rewrite Es in El. auto.
Qed.

Lemma ref_setpgid_err (pid pgid : Z) (k : kstate) (e : Z) (k' : kstate) :
  ref_setpgid pid pgid k = (Err e, k') -> k' = k /\ error_code e.
Proof.
  unfold ref_setpgid. intros H.
  repeat match type of H with
         | (if ?b then _ else _) = _ => destruct b
         | match ?x with Some _ => _ | None => _ end = _ => destruct x
         end;
    inversion H; subst; (split; [reflexivity |]);
    unfold error_code, max_int, EINVAL, ESRCH, EACCES, EPERM; lia.
Qed.

Lemma ref_setpgid_own_group (k : kstate) (g : Z) :
  ref_consistent k -> group_of k (k_self k) = Some g -> g <> k_self k ->
  exists k', ref_setpgid (k_self k) (k_self k) k = (Ok tt, k').
Proof.
  intros (_ & Hp & _) Hg Hne.
  apply group_of_Some in Hg. destruct Hg as (me & Hme & Hg).
  destruct (Hp _ _ Hme) as (Hpos & _ & Hlead).
  unfold ref_setpgid. cbv zeta.
  assert (E0 : (k_self k =? 0) = false) by (apply Z.eqb_neq; lia).
  assert (E1 : (k_self k <? 0) = false) by (apply Z.ltb_ge; lia).
  assert (E2 : (p_sid me =? k_self k) = false)
    by (apply Z.eqb_neq; intros E; apply Hne; rewrite <- Hg; auto).
  rewrite E0, E1, Hme, Z.eqb_refl, E2, Z.eqb_refl. simpl. eauto.
Qed.

(** The reference kernel is a host in the sense of the contract. *)
Lemma ref_posix_laws : PosixLaws kstate.
Proof.
  constructor; simpl.
  - (* consistent_caller *)
    intros k ((me & Hme) & _). exists (p_pgid me).
    apply group_of_Some. eauto.
  - (* consistent_ids *)
    intros k p g (_ & Hp & _) Hg.
    apply group_of_Some in Hg. destruct Hg as (q & Hq & <-).
    destruct (Hp _ _ Hq) as (? & ? & _). auto.
  - (* consistent_foreground *)
    intros k fd T (_ & _ & Ht) HT. unfold ref_ctty in HT.
    destruct (controlling k fd) as [[T' tm]|e] eqn:E; inversion HT; subst.
    destruct (controlling_ok k fd T tm E) as (_ & Htm & _).
    unfold ref_foreground. rewrite Htm. simpl. exact (Ht _ _ Htm).
  - (* tcgetpgrp_law *)
    exact ref_tcgetpgrp_law.
  - (* tcsetpgrp_ok *)
    intros fd pgrp k u k' H.
    destruct (ref_tcsetpgrp_ok _ _ _ _ _ H) as (T & tm & E & HT & H0 & Hg & ->).
    split; [| split; [reflexivity | split; [intros p; reflexivity | split]]].
    + intros Hc. apply consistent_set_foreground; [| assumption].
      destruct (group_in_session_member _ _ _ Hg) as (p & q & Hq & Hpg & _).
      destruct Hc as (_ & Hp & _). destruct (Hp _ _ Hq) as (_ & ? & _). lia.
    + intros fd'. now apply ctty_set_foreground.
    + exists T. split; [unfold ref_ctty; now rewrite E |]. split.
      * simpl. unfold ref_foreground, set_foreground. simpl.
        now rewrite lookup_insert_eq.
      * intros T' Hne. simpl. unfold ref_foreground, set_foreground. simpl.
        now rewrite lookup_insert_ne by congruence.
  - (* tcsetpgrp_err *)
    exact ref_tcsetpgrp_err.
  - (* tcsetpgrp_no_tty *)
    intros fd pgrp k H. unfold ref_ctty in H. unfold ref_tcsetpgrp.
    destruct (controlling k fd) as [[T tm]|e]; [discriminate | eauto].
  - (* setpgid_ok *)
    intros pid pgid k u k' H.
    destruct (ref_setpgid_ok _ _ _ _ _ H) as (q & Hq & Hl & Hg & ->).
    split; [| split; [reflexivity | split; [| split; [intros T; reflexivity |
                                                      split]]]].
    + intros Hc. apply consistent_set_group; try assumption; [| tauto].
      destruct Hc as (_ & Hp & _).
      destruct Hg as [-> | Hg].
      * destruct (Hp _ _ Hq) as (? & _ & _). assumption.
      * destruct (group_in_session_member _ _ _ Hg) as (p' & q' & Hq' & Hpg & _).
        destruct (Hp _ _ Hq') as (_ & ? & _). now rewrite <- Hpg.
    + intros fd. now apply ctty_set_group.
    + simpl. unfold group_of, set_group. simpl. now rewrite lookup_insert_eq.
    + intros p' Hne. simpl. unfold group_of, set_group. simpl.
      now rewrite lookup_insert_ne by congruence.
  - (* setpgid_err *)
    exact ref_setpgid_err.
  - (* setpgid_no_process *)
    intros pid pgid k H. apply group_of_None in H.
    unfold target in H. simpl in H.
    unfold ref_setpgid. cbv zeta. rewrite H.
    destruct (pgid <? 0); [eauto |].
    destruct (k_procs k !! k_self k); eauto.
  - (* setpgid_own_group *)
    exact ref_setpgid_own_group.
  - (* getpgrp_law *)
    intros k. unfold ref_getpgrp. eexists. split; [reflexivity |].
    intros ((me & Hme) & _). unfold group_of. now rewrite Hme.
  - (* getpgid_law *)
    intros pid k. unfold ref_getpgid, target. simpl.
    destruct (group_of k (if pid =? 0 then k_self k else pid)); [reflexivity |].
    exists ESRCH. split; [reflexivity |].
    unfold error_code, max_int, ESRCH. lia.
Qed.

(** The elementary updates against the updates the primitives make. *)
Lemma set_foreground_put (k : kstate) (T : Z) (tm : terminal) (g : Z) :
  k_ttys k !! T = Some tm -> set_foreground k T tm g = put_fg T g k.
Proof.
  intros HT. unfold set_foreground, put_fg.
  now rewrite (alter_alt_Some _ _ _ _ HT).
Qed.

Lemma set_group_put (k : kstate) (p : Z) (q : process) (g : Z) :
  k_procs k !! p = Some q -> set_group k p q g = put_pgid p g k.
Proof.
  intros Hq. unfold set_group, put_pgid.
  now rewrite (alter_alt_Some _ _ _ _ Hq).
Qed.

(** The reference kernel changes one cell per accepted setter. *)
Lemma ref_frame_laws : FrameLaws kstate.
Proof.
  constructor; simpl.
  - (* put_foreground_same *)
    intros T k. unfold put_fg, ref_foreground. destruct k as [s ps ts fs].
    simpl. f_equal. apply alter_id. intros tm Htm. rewrite Htm. simpl.
    now destruct tm.
  - (* put_foreground_twice *)
    intros T a b k. unfold put_fg. simpl. f_equal.
    rewrite alter_alter_eq. now apply alter_ext.
  - (* put_group_same *)
    intros p g k Hg. apply group_of_Some in Hg. destruct Hg as (q & Hq & <-).
    unfold put_pgid. destruct k as [s ps ts fs]. simpl in *. f_equal.
    apply alter_id. intros q' Hq'. rewrite Hq in Hq'. inversion Hq'; subst.
    now destruct q'.
  - (* put_group_twice *)
    intros p a b k. unfold put_pgid. simpl. f_equal.
    rewrite alter_alter_eq. now apply alter_ext.
  - (* tcsetpgrp_exact *)
    intros fd pgrp k u k' T H HT.
    destruct (ref_tcsetpgrp_ok _ _ _ _ _ H) as (T' & tm & E & Htm & _ & _ & ->).
    unfold ref_ctty in HT. rewrite E in HT. inversion HT; subst.
    now apply set_foreground_put.
  - (* setpgid_exact *)
    intros pid pgid k u k' H.
    destruct (ref_setpgid_ok _ _ _ _ _ H) as (q & Hq & _ & _ & ->).
    now apply set_group_put.
Qed.

End RefFacts.

(** ** The statements on the sample machine *)

Import Ref RefFacts.

Ltac int_range := unfold is_int, min_int, max_int; lia.

Ltac tables_consistent :=
  unfold ref_consistent, good_process, good_terminal;
  split; [vm_compute; eauto | split; apply (bool_decide_unpack _); vm_compute; exact I].

Example closed_descriptor :
  call (GetTerminalForegroundGroup 7) boot = (-1, Thread sample EBADF).
Proof. reflexivity. Qed.

Example not_a_terminal :
  call (SetTerminalForegroundGroup 3 100) boot = (-1, Thread sample ENOTTY).
Proof. reflexivity. Qed.

Example foreign_group_refused :
  call (SetTerminalForegroundGroup 0 300) boot = (-1, Thread sample EPERM).
Proof. reflexivity. Qed.

Example no_such_process :
  call (GetProcessGroupOf 999) boot = (-1, Thread sample ESRCH).
Proof. reflexivity. Qed.

Example session_leader_refused :
  (call (SetProcessGroup 100 100) boot).1 = -1.
Proof. reflexivity. Qed.

Example child_takes_terminal :
  (and_then (SetTerminalForegroundGroup 0 200)
            (GetTerminalForegroundGroup 1) grouped).1 = 200.
Proof. reflexivity. Qed.

Lemma shim_is_primitive_witness :
  call (GetTerminalForegroundGroup 0) boot
  = primitive (GetTerminalForegroundGroup 0) boot.
Proof.
  apply (shim_is_primitive (GetTerminalForegroundGroup 0) boot).
  - reflexivity.
  - simpl. int_range.
  - vm_compute. split; discriminate.
Defined.

Lemma failure_is_reported_witness :
  (call (GetTerminalForegroundGroup 7) boot).1 = -1 /\
  (and_then (GetTerminalForegroundGroup 7) GetLastError boot).1 = EBADF /\
  EBADF <> 0.
Proof.
  apply (failure_is_reported ref_posix_laws (GetTerminalForegroundGroup 7) boot).
  - reflexivity.
  - simpl. int_range.
  - exists sample. reflexivity.
Defined.

Lemma success_keeps_error_code_witness :
  (call GetOwnProcessGroup (call (GetProcessGroupOf 999) boot).2).2
  = (primitive GetOwnProcessGroup (call (GetProcessGroupOf 999) boot).2).2 /\
  (call GetLastError
        (call GetOwnProcessGroup (call (GetProcessGroupOf 999) boot).2).2).1
  = ESRCH /\
  ESRCH <> 0.
Proof.
  apply (success_keeps_error_code ref_posix_laws
           (GetProcessGroupOf 999) GetOwnProcessGroup boot ESRCH 100).
  - simpl. int_range.
  - exact I.
  - exists sample. reflexivity.
  - exists sample. reflexivity.
Defined.

Lemma foreground_roundtrip_witness :
  (and_then (SetTerminalForegroundGroup 0 200)
            (GetTerminalForegroundGroup 0) grouped).1 = 200.
Proof.
  apply (foreground_roundtrip ref_posix_laws 0 200 grouped).
  - int_range.
  - int_range.
  - reflexivity.
Defined.

(** C2 as stated fails when pgid is 0: the child 200 of the sample machine
    is allowed SetProcessGroup(200, 0), and GetProcessGroupOf(200) then
    returns 200, not 0. *)
Lemma setpgid_zero_counterexample :
  consistent (kernel boot) /\
  (call (SetProcessGroup 200 0) boot).1 = 0 /\
  (and_then (SetProcessGroup 200 0) (GetProcessGroupOf 200) boot).1 = 200 /\
  (and_then (SetProcessGroup 200 0) (GetProcessGroupOf 200) boot).1 <> 0.
Proof.
  split; [simpl; tables_consistent |].
  split; [reflexivity |]. split; [reflexivity | discriminate].
Qed.

Lemma process_group_roundtrip_witness :
  ((call (SetProcessGroup 0 0) boot).1 = 0 ->
   (and_then (SetProcessGroup 0 0) (GetProcessGroupOf 0) boot).1 = 200) /\
  (forall g,
     pgid_of (kernel boot) 200 = Some g -> g <> 200 ->
     (call (SetProcessGroup 200 200) boot).1 = 0 /\
     (and_then (SetProcessGroup 200 200) (GetProcessGroupOf 200) boot).1 = 200).
Proof.
  apply (process_group_roundtrip ref_posix_laws 0 0 boot).
  - simpl. tables_consistent.
  - int_range.
  - int_range.
Defined.

Lemma own_group_cannot_fail_witness :
  exists g, pgid_of (kernel boot) (caller (kernel boot)) = Some g /\
            call GetOwnProcessGroup boot = (g, boot) /\
            0 <= g /\ g <> -1.
Proof.
  apply (own_group_cannot_fail ref_posix_laws boot).
  simpl. tables_consistent.
Defined.


Lemma getpgid_zero_is_getpgrp_witness :
  pgid_of (kernel boot) (caller (kernel boot)) = Some 100 /\
  call (GetProcessGroupOf 0) boot = (100, boot) /\
  call GetOwnProcessGroup boot = (100, boot).
Proof.
  destruct (getpgid_zero_is_getpgrp ref_posix_laws boot)
    as (g & Hg & H0 & H1); [simpl; tables_consistent |].
  assert (Eg : g = 100) by (vm_compute in Hg; congruence).
  rewrite Eg in Hg, H0, H1. auto.
Defined.


(** * Further facts on sequences of operations *)

(** ** For every host *)

Section SequenceFacts.

Context {K : Type} `{!Kernel K}.

(** The state a call leaves, read off the kernel's verdict. *)
Lemma call_step (o : op) (t : thread K) :
  well_typed o ->
  (call o t).2 = match verdict o (kernel t) with
                 | Some (Ok _, k') => Thread k' (errno t)
                 | Some (Err e, k') => Thread k' e
                 | None => t
                 end.
Proof.
  intros Ht. rewrite (call_state o t Ht).
  destruct (verdict o (kernel t)) as [[[v|e] k']|] eqn:E.
  - now rewrite (primitive_ok o t v k' E).
  - now rewrite (primitive_err o t e k' E).
  - destruct o; simpl in E; try discriminate. reflexivity.
Qed.

Lemma run_cons_state (o : op) (os : list op) (t : thread K) :
  (run (o :: os) t).2 = (run os (call o t).2).2.
Proof.
  cbn [run]. unfold bind, ret. destruct (call o t) as [r t'].
  cbn [snd]. now destruct (run os t').
Qed.

(** What a system-call operation returns, and the kernel it leaves, depend
    on the thread through the kernel's state only. *)
Lemma call_kernel_only (o : op) (t1 t2 : thread K) :
  wraps_syscall o = true ->
  kernel t1 = kernel t2 ->
  (call o t1).1 = (call o t2).1 /\
  kernel (call o t1).2 = kernel (call o t2).2.
Proof.
  intros Hw Hk. destruct o; simpl; try discriminate;
    unfold ptctl_tcsetpgrp, ptctl_tcgetpgrp, ptctl_setpgid, ptctl_getpgrp,
      ptctl_getpgid, tcsetpgrp, tcgetpgrp, setpgid, getpgrp, getpgid,
      bind, ret, syscall; rewrite Hk.
  - now destruct (sys_tcsetpgrp _ _ _) as [[u|e] k'].
  - now destruct (sys_tcgetpgrp _ _) as [[u|e] k'].
  - now destruct (sys_setpgid _ _ _) as [[u|e] k'].
  - now destruct (sys_getpgrp _) as [[u|e] k'].
  - now destruct (sys_getpgid _ _) as [[u|e] k'].
Qed.

(** X1: after any sequence of operations, GetLastError returns the code of
    the last operation of the sequence that failed, and what errno held
    before the sequence when none failed. *)
Theorem last_error_reported (os : list op) (t : thread K) :
  Forall well_typed os ->
  (call GetLastError (run os t).2).1 = last_failure os (kernel t) (errno t).
Proof.
  intros Hos. revert t.
  induction Hos as [| o os Ho _ IH]; intros t; [reflexivity |].
  rewrite run_cons_state, IH, (call_step o t Ho). simpl.
  destruct (verdict o (kernel t)) as [[[v|e] k']|]; reflexivity.
Qed.

End SequenceFacts.

(** ** On a host that honours the contract *)

Section SequenceLaws.

Context {K : Type} `{!Kernel K, !KernelView K} (Laws : PosixLaws K).

Lemma verdict_total (o : op) (k : K) :
  wraps_syscall o = true -> exists r k', verdict o k = Some (r, k').
Proof.
  destruct o; simpl; intros H; try discriminate.
  - destruct (as_status (sys_tcsetpgrp fd pgrp k)); eauto.
  - destruct (sys_tcgetpgrp fd k); eauto.
  - destruct (as_status (sys_setpgid pid pgid k)); eauto.
  - destruct (sys_getpgrp k); eauto.
  - destruct (sys_getpgid pid k); eauto.
Qed.

(** The value of a successful call is 0 or an id: never negative. *)
Lemma success_value (o : op) (k k' : K) (v : Z) :
  consistent k -> verdict o k = Some (Ok v, k') -> 0 <= v <= max_int.
Proof.
  intros Hc. destruct o; simpl; intros H; inversion H as [H']; clear H.
  - apply as_status_ok in H'. destruct H' as [-> _]. unfold max_int. lia.
  - pose proof (tcgetpgrp_law fd k) as L.
    destruct (ctty_of k fd) as [T|] eqn:ET.
    + rewrite L in H'. inversion H'; subst.
      exact (consistent_foreground k' fd T Hc ET).
    + destruct L as (e & L & _). rewrite L in H'. inversion H'.
  - apply as_status_ok in H'. destruct H' as [-> _]. unfold max_int. lia.
  - destruct (getpgrp_law k) as (g & L & Hg). rewrite L in H'.
    inversion H'; subst.
    destruct (consistent_ids _ _ _ Hc (Hg Hc)). lia.
  - pose proof (getpgid_law pid k) as L.
    destruct (pgid_of k (target k pid)) as [g|] eqn:Eg.
    + rewrite L in H'. inversion H'; subst.
      destruct (consistent_ids _ _ _ Hc Eg). lia.
    + destruct L as (e & L & _). rewrite L in H'. inversion H'.
Qed.

(** A successful call keeps the kernel consistent and the caller the
    caller. *)
Lemma success_kernel (o : op) (k k' : K) (v : Z) :
  verdict o k = Some (Ok v, k') ->
  (consistent k -> consistent k') /\ caller k' = caller k.
Proof.
  destruct o; simpl; intros H; inversion H as [H']; clear H.
  - apply as_status_ok in H'. destruct H' as (_ & u & E).
    destruct (tcsetpgrp_ok _ _ _ _ _ E) as (? & ? & _). auto.
  - pose proof (tcgetpgrp_law fd k) as L.
    destruct (ctty_of k fd) as [T|].
    + rewrite L in H'. inversion H'; subst. auto.
    + destruct L as (e & L & _). rewrite L in H'. inversion H'.
  - apply as_status_ok in H'. destruct H' as (_ & u & E).
    destruct (setpgid_ok _ _ _ _ _ E) as (? & ? & _). auto.
  - destruct (getpgrp_law k) as (g & L & _). rewrite L in H'.
    inversion H'; subst. auto.
  - pose proof (getpgid_law pid k) as L.
    destruct (pgid_of k (target k pid)) as [g|].
    + rewrite L in H'. inversion H'; subst. auto.
    + destruct L as (e & L & _). rewrite L in H'. inversion H'.
Qed.

(** The kernel's verdict on a reading operation leaves the kernel alone. *)
Lemma reader_verdict (o : op) (k k' : K) (r : result Z) :
  reads_only o = true -> verdict o k = Some (r, k') -> k' = k.
Proof.
  destruct o; simpl; intros Hr H; try discriminate;
    inversion H as [H']; clear H.
  - pose proof (tcgetpgrp_law fd k) as L.
    destruct (ctty_of k fd) as [T|]; [| destruct L as (e & L & _)];
      rewrite L in H'; now inversion H'.
  - destruct (getpgrp_law k) as (g & L & _). rewrite L in H'. now inversion H'.
  - pose proof (getpgid_law pid k) as L.
    destruct (pgid_of k (target k pid)) as [g|]; [| destruct L as (e & L & _)];
      rewrite L in H'; now inversion H'.
Qed.

Lemma reader_keeps_kernel (o : op) (t : thread K) :
  reads_only o = true -> well_typed o -> kernel (call o t).2 = kernel t.
Proof.
  intros Hr Ht. rewrite (call_step o t Ht).
  destruct (verdict o (kernel t)) as [[[v|e] k']|] eqn:E; simpl;
    [| | reflexivity]; eapply reader_verdict; eauto.
Qed.

Lemma call_keeps_invariants (o : op) (t : thread K) :
  well_typed o -> consistent (kernel t) -> is_int (errno t) ->
  consistent (kernel (call o t).2) /\
  is_int (errno (call o t).2) /\
  caller (kernel (call o t).2) = caller (kernel t).
Proof.
  intros Ht Hc He. rewrite (call_step o t Ht).
  destruct (verdict o (kernel t)) as [[[v|e] k']|] eqn:E; simpl.
  - destruct (success_kernel _ _ _ _ E) as [Hc' Hs]. auto.
  - destruct (failure_code Laws _ _ _ _ E) as [-> Hcode].
    auto using error_code_is_int.
  - auto.
Qed.

(** X2: the sentinel is unambiguous.  On a consistent kernel a
    system-call operation returns -1 exactly when it failed; when it did
    not fail, its result is not negative and errno is what it was. *)
Theorem sentinel_iff_failure (o : op) (t : thread K) :
  consistent (kernel t) ->
  wraps_syscall o = true ->
  well_typed o ->
  ((call o t).1 = -1 <-> exists e, fails_with o t e) /\
  ((call o t).1 <> -1 ->
   0 <= (call o t).1 /\ errno (call o t).2 = errno t).
Proof.
  intros Hc Hw Ht.
  destruct (verdict_total o (kernel t) Hw) as ([v|e] & k' & E).
  - destruct (success_value _ _ _ _ Hc E) as [Hv0 Hv1].
    assert (Hvi : is_int v) by (unfold is_int, min_int, max_int in *; lia).
    rewrite (call_ok o t v k' Ht Hvi E). simpl. split.
    + split; [lia |]. intros (e & k'' & E'). rewrite E in E'. discriminate.
    + auto.
  - rewrite (call_err o t e k' Ht E). simpl. split.
    + split; [| reflexivity]. intros _. exists e, k'. exact E.
    + intros H. now elim H.
Qed.

(** X3: every operation keeps the invariants a caller relies on: along any
    sequence the kernel stays consistent, errno stays an int, and the
    calling process stays the same process. *)
Theorem run_keeps_invariants (os : list op) (t : thread K) :
  Forall well_typed os ->
  consistent (kernel t) ->
  is_int (errno t) ->
  consistent (kernel (run os t).2) /\
  is_int (errno (run os t).2) /\
  caller (kernel (run os t).2) = caller (kernel t).
Proof.
  intros Hos. revert t.
  induction Hos as [| o os Ho _ IH]; intros t Hc He; [auto |].
  rewrite run_cons_state.
  destruct (call_keeps_invariants o t Ho Hc He) as (Hc' & He' & Hs').
  destruct (IH _ Hc' He') as (? & ? & Hs). rewrite Hs, Hs'. auto.
Qed.

(** X4: a reading operation is invisible to the system-call operation that
    follows it: same result, same kernel state afterwards. *)
Theorem readers_transparent (g o : op) (t : thread K) :
  reads_only g = true ->
  well_typed g ->
  wraps_syscall o = true ->
  (and_then g o t).1 = (call o t).1 /\
  kernel (and_then g o t).2 = kernel (call o t).2.
Proof.
  intros Hr Hg Hw. rewrite and_then_eq.
  apply call_kernel_only; [exact Hw |]. now apply reader_keeps_kernel.
Qed.

(** X5: an operation that fails is invisible to the system-call operation
    that follows it: same result, same kernel state afterwards; all that a
    failure leaves behind is its code in errno. *)
Theorem refused_call_transparent (o1 o2 : op) (t : thread K) (e : Z) :
  well_typed o1 ->
  wraps_syscall o2 = true ->
  fails_with o1 t e ->
  (and_then o1 o2 t).1 = (call o2 t).1 /\
  kernel (and_then o1 o2 t).2 = kernel (call o2 t).2 /\
  (call o1 t).2 = Thread (kernel t) e.
Proof.
  intros Ht Hw (k' & E). rewrite and_then_eq.
  destruct (failure_code Laws _ _ _ _ E) as [-> _].
  rewrite (call_err o1 t e (kernel t) Ht E). cbn [snd].
  destruct (call_kernel_only o2 (Thread (kernel t) e) t Hw eq_refl) as [H1 H2].
  auto.
Qed.

End SequenceLaws.

(** ** Setters seen through the getters *)

Section Observations.

Context {K : Type} `{!Kernel K, !KernelView K} (Laws : PosixLaws K).

(** What the three getters return, in terms of the kernel's tables. *)
Lemma tcgetpgrp_result (fd : Z) (t : thread K) :
  consistent (kernel t) -> is_int fd ->
  (call (GetTerminalForegroundGroup fd) t).1
  = match ctty_of (kernel t) fd with
    | Some T => foreground (kernel t) T
    | None => -1
    end.
Proof.
  intros Hc Hfd. pose proof (tcgetpgrp_law fd (kernel t)) as L.
  destruct (ctty_of (kernel t) fd) as [T|] eqn:ET.
  - pose proof (consistent_foreground _ _ _ Hc ET) as Hr.
    rewrite (call_ok (GetTerminalForegroundGroup fd) t
                     (foreground (kernel t) T) (kernel t) Hfd);
      [reflexivity | unfold is_int, min_int, max_int in *; lia |].
    simpl. now rewrite L.
  - destruct L as (e & L & _).
    rewrite (call_err (GetTerminalForegroundGroup fd) t e (kernel t) Hfd);
      [reflexivity |].
    simpl. now rewrite L.
Qed.

Lemma getpgid_result (pid : Z) (t : thread K) :
  consistent (kernel t) -> is_int pid ->
  (call (GetProcessGroupOf pid) t).1
  = match pgid_of (kernel t) (target (kernel t) pid) with
    | Some g => g
    | None => -1
    end.
Proof.
  intros Hc Hpid. pose proof (getpgid_law pid (kernel t)) as L.
  destruct (pgid_of (kernel t) (target (kernel t) pid)) as [g|] eqn:Eg.
  - destruct (pgid_is_int Laws _ _ _ Hc Eg) as (_ & Hgi & _).
    rewrite (call_ok (GetProcessGroupOf pid) t g (kernel t) Hpid Hgi);
      [reflexivity |].
    simpl. now rewrite L.
  - destruct L as (e & L & _).
    rewrite (call_err (GetProcessGroupOf pid) t e (kernel t) Hpid);
      [reflexivity |].
    simpl. now rewrite L.
Qed.

Lemma getpgrp_result (t : thread K) (g : Z) :
  consistent (kernel t) ->
  pgid_of (kernel t) (caller (kernel t)) = Some g ->
  (call GetOwnProcessGroup t).1 = g.
Proof.
  intros Hc Hg. destruct (getpgrp_call Laws t Hc) as (g' & Hg' & Hcall & _).
  rewrite Hcall. simpl. congruence.
Qed.

(** The two outcomes of SetTerminalForegroundGroup. *)
Lemma tcsetpgrp_step (fd pgrp : Z) (t : thread K) :
  is_int fd -> is_int pgrp ->
  ((call (SetTerminalForegroundGroup fd pgrp) t).1 = 0 /\
   (consistent (kernel t) ->
    consistent (kernel (call (SetTerminalForegroundGroup fd pgrp) t).2)) /\
   same_caller (kernel t) (kernel (call (SetTerminalForegroundGroup fd pgrp) t).2) /\
   same_groups (kernel t) (kernel (call (SetTerminalForegroundGroup fd pgrp) t).2) /\
   same_descriptors (kernel t)
     (kernel (call (SetTerminalForegroundGroup fd pgrp) t).2) /\
   exists T, ctty_of (kernel t) fd = Some T /\
     foreground (kernel (call (SetTerminalForegroundGroup fd pgrp) t).2) T
     = pgrp /\
     same_foreground_except T (kernel t)
       (kernel (call (SetTerminalForegroundGroup fd pgrp) t).2))
  \/
  ((call (SetTerminalForegroundGroup fd pgrp) t).1 = -1 /\
   kernel (call (SetTerminalForegroundGroup fd pgrp) t).2 = kernel t).
Proof.
  intros Hfd Hp.
  destruct (sys_tcsetpgrp fd pgrp (kernel t)) as [[u|e] k'] eqn:E.
  - left.
    assert (Hv : verdict (SetTerminalForegroundGroup fd pgrp) (kernel t)
                 = Some (Ok 0, k')) by (simpl; now rewrite E).
    rewrite (call_ok (SetTerminalForegroundGroup fd pgrp) t 0 k'
                     (conj Hfd Hp) is_int_0 Hv). cbn [fst snd kernel].
    split; [reflexivity |]. exact (tcsetpgrp_ok _ _ _ _ _ E).
  - right.
    assert (Hv : verdict (SetTerminalForegroundGroup fd pgrp) (kernel t)
                 = Some (Err e, k')) by (simpl; now rewrite E).
    rewrite (call_err (SetTerminalForegroundGroup fd pgrp) t e k'
                      (conj Hfd Hp) Hv). cbn [fst snd kernel].
    split; [reflexivity |]. now destruct (tcsetpgrp_err _ _ _ _ _ E).
Qed.

(** The two outcomes of SetProcessGroup. *)
Lemma setpgid_step (pid pgid : Z) (t : thread K) :
  is_int pid -> is_int pgid ->
  ((call (SetProcessGroup pid pgid) t).1 = 0 /\
   (consistent (kernel t) ->
    consistent (kernel (call (SetProcessGroup pid pgid) t).2)) /\
   same_caller (kernel t) (kernel (call (SetProcessGroup pid pgid) t).2) /\
   same_descriptors (kernel t) (kernel (call (SetProcessGroup pid pgid) t).2) /\
   same_foreground (kernel t) (kernel (call (SetProcessGroup pid pgid) t).2) /\
   pgid_of (kernel (call (SetProcessGroup pid pgid) t).2)
           (target (kernel t) pid)
   = Some (group_for (target (kernel t) pid) pgid) /\
   same_groups_except (target (kernel t) pid) (kernel t)
     (kernel (call (SetProcessGroup pid pgid) t).2))
  \/
  ((call (SetProcessGroup pid pgid) t).1 = -1 /\
   kernel (call (SetProcessGroup pid pgid) t).2 = kernel t).
Proof.
  intros Hpid Hpgid.
  destruct (sys_setpgid pid pgid (kernel t)) as [[u|e] k'] eqn:E.
  - left.
    assert (Hv : verdict (SetProcessGroup pid pgid) (kernel t)
                 = Some (Ok 0, k')) by (simpl; now rewrite E).
    rewrite (call_ok (SetProcessGroup pid pgid) t 0 k'
                     (conj Hpid Hpgid) is_int_0 Hv). cbn [fst snd kernel].
    split; [reflexivity |]. exact (setpgid_ok _ _ _ _ _ E).
  - right.
    assert (Hv : verdict (SetProcessGroup pid pgid) (kernel t)
                 = Some (Err e, k')) by (simpl; now rewrite E).
    rewrite (call_err (SetProcessGroup pid pgid) t e k'
                      (conj Hpid Hpgid) Hv). cbn [fst snd kernel].
    split; [reflexivity |]. now destruct (setpgid_err _ _ _ _ _ E).
Qed.

(** X6: an accepted SetProcessGroup on the calling process (pid 0 or the
    caller's own id) shows in GetOwnProcessGroup: it returns pgid, and the
    caller's process id when pgid is 0. *)
Theorem own_group_after_setpgid (pid pgid : Z) (t : thread K) :
  consistent (kernel t) ->
  is_int pid ->
  is_int pgid ->
  target (kernel t) pid = caller (kernel t) ->
  (call (SetProcessGroup pid pgid) t).1 = 0 ->
  (and_then (SetProcessGroup pid pgid) GetOwnProcessGroup t).1
  = if pgid =? 0 then caller (kernel t) else pgid.
Proof.
  intros Hc Hpid Hpgid Hself H0. rewrite and_then_eq.
  destruct (setpgid_step pid pgid t Hpid Hpgid)
    as [(_ & Hc' & Hs & _ & _ & Hg & _) | (Hm & _)]; [| lia].
  rewrite Hself in Hg. unfold group_for in Hg.
  apply getpgrp_result; [auto |]. now rewrite Hs.
Qed.

(** X7: terminals and process groups do not interfere.  Whatever
    SetTerminalForegroundGroup does, GetProcessGroupOf and
    GetOwnProcessGroup return what they would have returned without it; and
    whatever SetProcessGroup does, GetTerminalForegroundGroup returns what it
    would have returned without it. *)
Theorem terminals_and_groups_independent
        (fd pgrp pid pgid fd' pid' : Z) (t : thread K) :
  consistent (kernel t) ->
  is_int fd -> is_int pgrp -> is_int pid -> is_int pgid ->
  is_int fd' -> is_int pid' ->
  (and_then (SetTerminalForegroundGroup fd pgrp) (GetProcessGroupOf pid') t).1
  = (call (GetProcessGroupOf pid') t).1 /\
  (and_then (SetTerminalForegroundGroup fd pgrp) GetOwnProcessGroup t).1
  = (call GetOwnProcessGroup t).1 /\
  (and_then (SetProcessGroup pid pgid) (GetTerminalForegroundGroup fd') t).1
  = (call (GetTerminalForegroundGroup fd') t).1.
Proof.
  intros Hc Hfd Hpgrp Hpid Hpgid Hfd' Hpid'. rewrite !and_then_eq.
  destruct (consistent_caller _ Hc) as (g0 & Hg0).
  split; [| split].
  - destruct (tcsetpgrp_step fd pgrp t Hfd Hpgrp)
      as [(_ & Hc' & Hs & Hg & _) | (_ & Hk)].
    + rewrite (getpgid_result pid' _ (Hc' Hc) Hpid'),
        (getpgid_result pid' t Hc Hpid').
      now rewrite (target_same_caller _ _ _ Hs), Hg.
    + rewrite (getpgid_result pid' _ (eq_ind_r consistent Hc Hk) Hpid'),
        (getpgid_result pid' t Hc Hpid').
      now rewrite Hk.
  - rewrite (getpgrp_result t g0 Hc Hg0).
    destruct (tcsetpgrp_step fd pgrp t Hfd Hpgrp)
      as [(_ & Hc' & Hs & Hg & _) | (_ & Hk)].
    + apply getpgrp_result; [auto |]. now rewrite Hs, Hg.
    + apply getpgrp_result; now rewrite Hk.
  - destruct (setpgid_step pid pgid t Hpid Hpgid)
      as [(_ & Hc' & _ & Hd & Hf & _) | (_ & Hk)].
    + rewrite (tcgetpgrp_result fd' _ (Hc' Hc) Hfd'),
        (tcgetpgrp_result fd' t Hc Hfd').
      rewrite Hd. destruct (ctty_of (kernel t) fd'); [apply Hf | reflexivity].
    + rewrite (tcgetpgrp_result fd' _ (eq_ind_r consistent Hc Hk) Hfd'),
        (tcgetpgrp_result fd' t Hc Hfd').
      now rewrite Hk.
Qed.


(** X8: SetProcessGroup touches its target process only: whether it is
    accepted or refused, GetProcessGroupOf called next for any other
    process returns what it would have returned without it. *)
Theorem other_processes_unaffected (pid pgid pid' : Z) (t : thread K) :
  consistent (kernel t) ->
  is_int pid -> is_int pgid -> is_int pid' ->
  target (kernel t) pid' <> target (kernel t) pid ->
  (and_then (SetProcessGroup pid pgid) (GetProcessGroupOf pid') t).1
  = (call (GetProcessGroupOf pid') t).1.
Proof.
  intros Hc Hpid Hpgid Hpid' Hne. rewrite and_then_eq.
  destruct (setpgid_step pid pgid t Hpid Hpgid)
    as [(_ & Hc' & Hs & _ & _ & _ & Hx) | (_ & Hk)].
  - rewrite (getpgid_result pid' _ (Hc' Hc) Hpid'),
      (getpgid_result pid' t Hc Hpid').
    rewrite (target_same_caller _ _ _ Hs). now rewrite (Hx _ Hne).
  - rewrite (getpgid_result pid' _ (eq_ind_r consistent Hc Hk) Hpid'),
      (getpgid_result pid' t Hc Hpid').
    now rewrite Hk.
Qed.

(** X9: the foreground group belongs to the terminal, not to the
    descriptor: after an accepted SetTerminalForegroundGroup(fd, pgrp),
    GetTerminalForegroundGroup returns pgrp through every descriptor open
    on the same terminal. *)
Theorem foreground_shared_by_descriptors (fd fd' pgrp : Z) (t : thread K) :
  consistent (kernel t) ->
  is_int fd -> is_int fd' -> is_int pgrp ->
  ctty_of (kernel t) fd' = ctty_of (kernel t) fd ->
  (call (SetTerminalForegroundGroup fd pgrp) t).1 = 0 ->
  (and_then (SetTerminalForegroundGroup fd pgrp)
            (GetTerminalForegroundGroup fd') t).1 = pgrp.
Proof.
  intros Hc Hfd Hfd' Hpgrp Hsame H0. rewrite and_then_eq.
  destruct (tcsetpgrp_step fd pgrp t Hfd Hpgrp)
    as [(_ & Hc' & _ & _ & Hd & T & HT & Hfg & _) | (Hm & _)]; [| lia].
  rewrite (tcgetpgrp_result fd' _ (Hc' Hc) Hfd').
  now rewrite Hd, Hsame, HT.
Qed.

End Observations.

(** ** The further facts on the sample machine *)

Ltac all_well_typed :=
  repeat (apply List.Forall_cons;
          [simpl; first [exact I | int_range | split; int_range] |]);
  apply List.Forall_nil.

Example session_results : (run session boot).1 = [-1; 100; -1; 0].
Proof. reflexivity. Qed.

Lemma last_error_reported_witness :
  (call GetLastError (run session boot).2).1 = ESRCH.
Proof.
  assert (H : Forall well_typed session) by (unfold session; all_well_typed).
  etransitivity; [exact (last_error_reported session boot H) |].
  vm_compute. reflexivity.
Defined.

Lemma sentinel_iff_failure_witness :
  ((call (GetProcessGroupOf 999) boot).1 = -1 <->
   exists e, fails_with (GetProcessGroupOf 999) boot e) /\
  ((call (GetProcessGroupOf 999) boot).1 <> -1 ->
   0 <= (call (GetProcessGroupOf 999) boot).1 /\
   errno (call (GetProcessGroupOf 999) boot).2 = errno boot).
Proof.
  apply (sentinel_iff_failure ref_posix_laws (GetProcessGroupOf 999) boot).
  - simpl. tables_consistent.
  - reflexivity.
  - simpl. int_range.
Defined.

Lemma run_keeps_invariants_witness :
  consistent (kernel (run session boot).2) /\
  is_int (errno (run session boot).2) /\
  caller (kernel (run session boot).2) = caller (kernel boot).
Proof.
  apply (run_keeps_invariants ref_posix_laws session boot).
  - unfold session. all_well_typed.
  - simpl. tables_consistent.
  - simpl. int_range.
Defined.

Lemma readers_transparent_witness :
  (and_then (GetTerminalForegroundGroup 7) (GetProcessGroupOf 200) boot).1
  = (call (GetProcessGroupOf 200) boot).1 /\
  kernel (and_then (GetTerminalForegroundGroup 7)
                   (GetProcessGroupOf 200) boot).2
  = kernel (call (GetProcessGroupOf 200) boot).2.
Proof.
  apply (readers_transparent ref_posix_laws
           (GetTerminalForegroundGroup 7) (GetProcessGroupOf 200) boot).
  - reflexivity.
  - simpl. int_range.
  - reflexivity.
Defined.

Lemma refused_call_transparent_witness :
  (and_then (SetTerminalForegroundGroup 0 300)
            (GetTerminalForegroundGroup 0) boot).1
  = (call (GetTerminalForegroundGroup 0) boot).1 /\
  kernel (and_then (SetTerminalForegroundGroup 0 300)
                   (GetTerminalForegroundGroup 0) boot).2
  = kernel (call (GetTerminalForegroundGroup 0) boot).2 /\
  (call (SetTerminalForegroundGroup 0 300) boot).2 = Thread (kernel boot) EPERM.
Proof.
  apply (refused_call_transparent ref_posix_laws
           (SetTerminalForegroundGroup 0 300)
           (GetTerminalForegroundGroup 0) boot EPERM).
  - simpl. split; int_range.
  - reflexivity.
  - exists sample. reflexivity.
Defined.

Lemma own_group_after_setpgid_witness :
  (and_then (SetProcessGroup 0 0) GetOwnProcessGroup boot).1 = 200.
Proof.
  apply (own_group_after_setpgid ref_posix_laws 0 0 boot).
  - simpl. tables_consistent.
  - int_range.
  - int_range.
  - reflexivity.
  - reflexivity.
Defined.

Lemma terminals_and_groups_independent_witness :
  (and_then (SetTerminalForegroundGroup 0 200) (GetProcessGroupOf 100)
            grouped).1
  = (call (GetProcessGroupOf 100) grouped).1 /\
  (and_then (SetTerminalForegroundGroup 0 200) GetOwnProcessGroup grouped).1
  = (call GetOwnProcessGroup grouped).1 /\
  (and_then (SetProcessGroup 0 100) (GetTerminalForegroundGroup 1) grouped).1
  = (call (GetTerminalForegroundGroup 1) grouped).1.
Proof.
  apply (terminals_and_groups_independent ref_posix_laws
           0 200 0 100 1 100 grouped).
  - simpl. tables_consistent.
  - int_range.
  - int_range.
  - int_range.
  - int_range.
  - int_range.
  - int_range.
Defined.


Lemma other_processes_unaffected_witness :
  (call (SetProcessGroup 0 0) boot).1 = 0 /\
  (call (GetProcessGroupOf 100) boot).1 = 100 /\
  (and_then (SetProcessGroup 0 0) (GetProcessGroupOf 100) boot).1
  = (call (GetProcessGroupOf 100) boot).1.
Proof.
  split; [reflexivity |]. split; [reflexivity |].
  apply (other_processes_unaffected ref_posix_laws 0 0 100 boot);
    try int_range; [simpl; tables_consistent | vm_compute; discriminate].
Defined.

Lemma foreground_shared_by_descriptors_witness :
  (and_then (SetTerminalForegroundGroup 0 200)
            (GetTerminalForegroundGroup 1) grouped).1 = 200.
Proof.
  apply (foreground_shared_by_descriptors ref_posix_laws 0 1 200 grouped).
  - simpl. tables_consistent.
  - int_range.
  - int_range.
  - int_range.
  - reflexivity.
  - reflexivity.
Defined.
